(** * PricePulse: a shallow embedding of [avg_crypto_price.py]

    The script polls a remote HTTP API for the price of one coin, keeps the
    last [max_price_storage] prices in a bounded [collections.deque] and
    prints every observation next to the simple moving average (SMA) of the
    window.  Both remote functions are wrapped by tenacity's [retry]
    decorator; a SIGINT handler sets a process-wide flag that the functions
    and the poll loop consult.

    Conventions of the embedding:
    - Python [int] is [Z]; JSON numbers (Python [int] or [float]) are the
      exact rationals [Q] they denote, arithmetic on them is exact (float
      rounding, [nan] and [inf] are outside the model);
    - Python [str] is [string] (a byte string; case mapping is ASCII only);
    - a raised exception is the [Raise] branch of [Result];
    - the interaction with the outside (HTTP replies, SIGINT, time) is a
      transition system [step] driven by a list of [Input]s, which records
      every observable action in a trace of [Event]s. *)

From Stdlib Require Import String Ascii ZArith QArith List Bool Lia ZifyNat.
From Stdlib Require Import Qabs DecimalString DecimalN.
Import ListNotations.
Local Open Scope string_scope.
Local Open Scope list_scope.
Local Open Scope Z_scope.

Set Implicit Arguments.

(** ** Python values and exceptions *)

(** A decoded JSON document ([response.json()]).  An object is the decoded
    [dict], kept as an association list in document order; [dict_lookup]
    returns the first binding of a key. *)
#[warnings="-register-all"]
Inductive json : Type :=
| JNull
| JBool (b : bool)
| JNum (q : Q)
| JStr (s : string)
| JArr (l : list json)
| JObj (m : list (string * json)).

(** [requests.Response]: the status line, the raw body ([response.text]) and
    the result of decoding the body as JSON ([None] when the body is not a
    JSON document). *)
Record Response : Type := mkResponse {
  status_code : Z;
  text : string;
  body : option json
}.

(** The exceptions the script can see.  [HTTPError], [ConnectionError] and
    [JSONDecodeError] are the subclasses of [requests.RequestException] that
    [session.get], [raise_for_status] and [response.json] raise; only
    [HTTPError] carries a response. *)
Inductive exn : Type :=
| HTTPError (response : Response)
| ConnectionError
| JSONDecodeError
| ShutdownRequested (msg : string)
| Exception_ (msg : string)
| KeyError (key : string)
| TypeError
| AttributeError
| ValueError
| ZeroDivisionError.

Inductive Result (A : Type) : Type :=
| Ok (a : A)
| Raise (e : exn).
Arguments Ok {A} a.
Arguments Raise {A} e.

Definition bind {A B : Type} (r : Result A) (k : A -> Result B) : Result B :=
  match r with
  | Ok a => k a
  | Raise e => Raise e
  end.

Notation "x <- r ;; k" := (bind r (fun x => k))
  (at level 61, r at next level, right associativity).

(** ** Builtins *)

Fixpoint dict_lookup (m : list (string * json)) (key : string) : option json :=
  match m with
  | [] => None
  | (k, v) :: m' => if String.eqb k key then Some v else dict_lookup m' key
  end.

(** [obj[key]] with a [str] key: [KeyError] on a dict without the key,
    [TypeError] on every other JSON value (lists want integer indices, the
    rest is not subscriptable by a name). *)
Definition getitem (obj : json) (key : string) : Result json :=
  match obj with
  | JObj m => match dict_lookup m key with
              | Some v => Ok v
              | None => Raise (KeyError key)
              end
  | _ => Raise TypeError
  end.

(** [obj.get(key)]: only a dict has the method; [None] stands for "the
    default applies". *)
Definition dict_get (obj : json) (key : string) : Result (option json) :=
  match obj with
  | JObj m => Ok (dict_lookup m key)
  | _ => Raise AttributeError
  end.

Definition upper_ascii (c : ascii) : ascii :=
  let n := nat_of_ascii c in
  if (97 <=? n)%nat && (n <=? 122)%nat then ascii_of_nat (n - 32) else c.

Fixpoint upper (s : string) : string :=
  match s with
  | EmptyString => EmptyString
  | String c s' => String (upper_ascii c) (upper s')
  end.

(** [obj.upper()]: only [str] has the method. *)
Definition str_upper (obj : json) : Result string :=
  match obj with
  | JStr s => Ok (upper s)
  | _ => Raise AttributeError
  end.

(** The numeric reading of a value under [+], [/] and format spec [f]:
    [bool] is an [int]; [None], [str], lists and dicts raise [TypeError]. *)
Definition as_number (v : json) : Result Q :=
  match v with
  | JNum q => Ok q
  | JBool b => Ok (if b then 1%Q else 0%Q)
  | _ => Raise TypeError
  end.

(** ** collections.deque *)

Record deque (A : Type) : Type := mkDeque {
  maxlen : Z;
  items : list A
}.

(** [deque(maxlen=n)]: a negative bound is refused with
    [ValueError("maxlen must be non-negative")]. *)
Definition deque_new (A : Type) (n : Z) : Result (deque A) :=
  if n <? 0 then Raise ValueError else Ok (mkDeque n (@nil A)).

Definition len {A : Type} (d : deque A) : Z := Z.of_nat (length (items d)).

(** [d.append(x)]: the item goes to the right end, then the deque is trimmed
    from the left while it is longer than [maxlen]. *)
Definition append {A : Type} (d : deque A) (x : A) : deque A :=
  let grown := items d ++ [x] in
  if maxlen d <? Z.of_nat (length grown)
  then mkDeque (maxlen d) (tl grown)
  else mkDeque (maxlen d) grown.

(** ** The SMA of the poll loop (line 113) *)

(** [sum(prices)]: left to right, starting from the [int] 0. *)
Definition py_sum (l : list Q) : Q := fold_left Qplus l 0%Q.

(** [a / n] with an [int] divisor. *)
Definition truediv (a : Q) (n : Z) : Result Q :=
  if n =? 0 then Raise ZeroDivisionError else Ok (a / inject_Z n)%Q.

(** [sum(prices) / len(prices) if prices else 0] *)
Definition sma (prices : deque Q) : Result Q :=
  if 0 <? len prices then truediv (py_sum (items prices)) (len prices)
  else Ok 0%Q.

(** The window after a sequence of appends. *)
Definition push_all {A : Type} (d : deque A) (vals : list A) : deque A :=
  fold_left append vals d.

(** The arithmetic mean of a list, as the specification words it. *)
Definition mean (l : list Q) : Q :=
  (fold_right Qplus 0 l / inject_Z (Z.of_nat (length l)))%Q.

(** The last [k] elements of a list. *)
Definition lastn {A : Type} (k : nat) (l : list A) : list A :=
  skipn (length l - k) l.

(** ** tenacity *)

(** [wait_exponential(multiplier, min, max)] applied to a retry state whose
    attempt number is [attempt_number] (tenacity, [exp_base] 2):
    [max(max(0, min), min(multiplier * 2 ** (attempt_number - 1), max))]. *)
Definition wait_exponential (multiplier min_ max_ : Z) (attempt_number : Z) : Z :=
  Z.max (Z.max 0 min_) (Z.min (multiplier * 2 ^ (attempt_number - 1)) max_).

(** [retry_if_exception_type((requests.RequestException,))] *)
Definition retry_if_exception_type (e : exn) : bool :=
  match e with
  | HTTPError _ | ConnectionError | JSONDecodeError => true
  | _ => false
  end.

(** ** requests *)

Record Request : Type := mkRequest {
  url : string;
  params : list (string * string)
}.

(** What [session.get] comes back with: a response, or a transport failure
    ([requests.ConnectionError], a [RequestException] without response). *)
Inductive GetResult : Type :=
| Replied (r : Response)
| Failed.

Definition session_get (g : GetResult) : Result Response :=
  match g with
  | Replied r => Ok r
  | Failed => Raise ConnectionError
  end.

(** [response.raise_for_status()]: [HTTPError] for 4xx and 5xx. *)
Definition raise_for_status (r : Response) : Result unit :=
  if (400 <=? status_code r) && (status_code r <? 600)
  then Raise (HTTPError r) else Ok tt.

(** [response.json()] *)
Definition response_json (r : Response) : Result json :=
  match body r with
  | Some j => Ok j
  | None => Raise JSONDecodeError
  end.

(** ** datetime *)

Definition is_leap (year : Z) : bool :=
  (year mod 4 =? 0) && (negb (year mod 100 =? 0) || (year mod 400 =? 0)).

Definition days_before_year (year : Z) : Z :=
  let y := year - 1 in y * 365 + y / 4 - y / 100 + y / 400.

Definition DAYS_IN_MONTH : list Z :=
  [-1; 31; 28; 31; 30; 31; 30; 31; 31; 30; 31; 30; 31].

Definition DAYS_BEFORE_MONTH : list Z :=
  [-1; 0; 31; 59; 90; 120; 151; 181; 212; 243; 273; 304; 334].

Definition days_in_month (year month : Z) : Z :=
  if (month =? 2) && is_leap year then 29
  else nth (Z.to_nat month) DAYS_IN_MONTH 0.

Definition days_before_month (year month : Z) : Z :=
  nth (Z.to_nat month) DAYS_BEFORE_MONTH 0
  + (if (2 <? month) && is_leap year then 1 else 0).

(** Proleptic Gregorian ordinal of a date, 0001-01-01 being day 1. *)
Definition ymd2ord (year month day : Z) : Z :=
  days_before_year year + days_before_month year month + day.

Definition DI400Y : Z := 146097.
Definition DI100Y : Z := 36524.
Definition DI4Y : Z := 1461.

(** The inverse, as the datetime module computes it. *)
Definition ord2ymd (ordinal : Z) : Z * Z * Z :=
  let n := ordinal - 1 in
  let n400 := n / DI400Y in
  let n := n mod DI400Y in
  let year := n400 * 400 + 1 in
  let n100 := n / DI100Y in
  let n := n mod DI100Y in
  let n4 := n / DI4Y in
  let n := n mod DI4Y in
  let n1 := n / 365 in
  let n := n mod 365 in
  let year := year + n100 * 100 + n4 * 4 + n1 in
  if (n1 =? 4) || (n100 =? 4) then (year - 1, 12, 31)
  else
    let leapyear := (n1 =? 3) && (negb (n4 =? 24) || (n100 =? 3)) in
    let month := Z.shiftr (n + 50) 5 in
    let preceding :=
      nth (Z.to_nat month) DAYS_BEFORE_MONTH 0
      + (if (2 <? month) && leapyear then 1 else 0) in
    if n <? preceding then
      let month := month - 1 in
      let preceding :=
        preceding - (nth (Z.to_nat month) DAYS_IN_MONTH 0
                     + (if (month =? 2) && leapyear then 1 else 0)) in
      (year, month, n - preceding + 1)
    else (year, month, n - preceding + 1).

(** The fields of a [datetime] that the script renders. *)
Record datetime : Type := mkDatetime {
  year : Z; month : Z; day : Z;
  hour : Z; minute : Z; second : Z
}.

(** Round to the nearest integer, ties to the even one. *)
Definition round_half_even (q : Q) : Z :=
  let a := Qnum q in
  let b := Zpos (Qden q) in
  let f := a / b in
  match 2 * (a mod b) ?= b with
  | Lt => f
  | Gt => f + 1
  | Eq => if Z.even f then f else f + 1
  end.

Definition EPOCH_ORDINAL : Z := 719163.
Definition MAX_ORDINAL : Z := 3652059.

(** [datetime.fromtimestamp(t, tz=timezone.utc)] on epoch seconds [t]: a
    date outside the years 1 to 9999 is refused ([ValueError] stands for
    the [ValueError], [OverflowError] or [OSError] of the library). *)
Definition utcfromseconds (t : Z) : Result datetime :=
  let ordinal := EPOCH_ORDINAL + t / 86400 in
  let s := t mod 86400 in
  if (ordinal <? 1) || (MAX_ORDINAL <? ordinal) then Raise ValueError
  else
    let '(y, m, d) := ord2ymd ordinal in
    Ok (mkDatetime y m d (s / 3600) (s mod 3600 / 60) (s mod 60)).

(** [datetime.fromtimestamp(ts_unix, tz=timezone.utc)]: the timestamp is
    rounded to microseconds first; a value that is not a number is a
    [TypeError]. *)
Definition fromtimestamp (ts_unix : json) : Result datetime :=
  t <- as_number ts_unix ;;
  utcfromseconds (round_half_even (t * 1000000) / 1000000).

(** ** Rendering numbers *)

Definition digit (n : Z) : ascii := ascii_of_nat (48 + Z.to_nat n).

Definition pad2 (n : Z) : string :=
  String (digit (n / 10 mod 10)) (String (digit (n mod 10)) "").

Definition pad4 (n : Z) : string :=
  String (digit (n / 1000 mod 10)) (String (digit (n / 100 mod 10)) (pad2 n)).

(** [str(n)] for a non-negative [int]. *)
Definition decimal (n : Z) : string :=
  DecimalString.NilZero.string_of_uint (N.to_uint (Z.to_N n)).

(** [k] digits are left in the current group. *)
Fixpoint commas (k : nat) (s : string) : string :=
  match s with
  | EmptyString => EmptyString
  | String c s' =>
      match k with
      | O => String "," (String c (commas 2 s'))
      | S k' => String c (commas k' s')
      end
  end.

(** The [,] option of the format spec: groups of three from the right. *)
Definition group3 (s : string) : string :=
  commas (S ((String.length s - 1) mod 3)) s.

(** [timestamp.strftime("%Y-%m-%dT%H:%M:%S")] *)
Definition strftime (t : datetime) : string :=
  (pad4 (year t) ++ "-" ++ pad2 (month t) ++ "-" ++ pad2 (day t) ++ "T"
   ++ pad2 (hour t) ++ ":" ++ pad2 (minute t) ++ ":" ++ pad2 (second t))%string.

(** [f"{x:,.2f}"]: sign, integer part grouped by thousands, two decimals. *)
Definition format_2f (x : Q) : string :=
  let n := round_half_even (Qabs x * 100) in
  ((if Qlt_le_dec x 0 then "-" else "")
   ++ group3 (decimal (n / 100)) ++ "." ++ pad2 (n mod 100))%string.

(** ** The script *)

Inductive Level : Type := INFO | ERROR.

(** What is handed to [logging]: a literal, a JSON value, or [str(e)] of an
    exception. *)
Inductive LogMsg : Type :=
| MStr (s : string)
| MJson (v : json)
| MStrOf (e : exn).

(** Observable actions, in the order they happen. *)
Inductive Event : Type :=
| EvLog (lvl : Level) (msg : LogMsg)
| EvGet (req : Request)
| EvSleep (secs : Z)
| EvPrint (line : string).

Definition URL : string := "https://api.coingecko.com/api/v3".

(** U+2026 and U+2192 in UTF-8. *)
Definition ELLIPSIS : string :=
  String (ascii_of_nat 226) (String (ascii_of_nat 128) (String (ascii_of_nat 166) "")).
Definition ARROW : string :=
  String (ascii_of_nat 226) (String (ascii_of_nat 134) (String (ascii_of_nat 146) "")).

(** [current_exception.response]: [None] unless the exception came from
    [raise_for_status]; [None.json] is an [AttributeError]. *)
Definition exn_response (e : exn) : Result Response :=
  match e with
  | HTTPError r => Ok r
  | _ => Raise AttributeError
  end.

(** [update_retry_info] (lines 24-37), tenacity's [before_sleep] hook: the
    events it logs, or the exception that escapes it. *)
Definition update_retry_info (attempt_number : Z) (current_exception : exn)
  : Result (list Event) :=
  let current_retry := attempt_number in
  if negb (current_retry =? 0) && (current_retry mod 5 =? 0) then
    response <- exn_response current_exception ;;
    doc <- response_json response ;;
    status <- dict_get doc "status" ;;
    error_msg <- dict_get (match status with Some v => v | None => JObj [] end)
                          "error_message" ;;
    Ok [EvLog ERROR (match error_msg with
                     | Some v => MJson v
                     | None => MStrOf current_exception
                     end)]
  else Ok [].

(** One call of a decorated function's body: it finishes without touching
    the network, or it issues one request and continues with the reply. *)
Inductive Attempt (A : Type) : Type :=
| Done (r : Result A)
| Call (req : Request) (k : GetResult -> Result A).
Arguments Done {A} r.
Arguments Call {A} req k.

(** [get_coin_symbol] (lines 45-65), the body under the decorator. *)
Definition get_coin_symbol (shutdown_requested : bool) (coin_name : string)
  : Attempt string :=
  if shutdown_requested
  then Done (Raise (ShutdownRequested "Shutdown requested, aborting fetch."))
  else
    Call (mkRequest (URL ++ "/coins/" ++ coin_name)%string [])
      (fun reply =>
         response <- session_get reply ;;
         if status_code response =? 404
         then Raise (Exception_ (text response))
         else
           _ <- raise_for_status response ;;
           coin_data <- response_json response ;;
           symbol <- getitem coin_data "symbol" ;;
           str_upper symbol).

(** [fetch_price] (lines 68-93), the body under the decorator. *)
Definition fetch_price (shutdown_requested : bool) (coin : string)
  : Attempt (json * string) :=
  if shutdown_requested
  then Done (Raise (ShutdownRequested "Shutdown requested, aborting fetch."))
  else
    Call (mkRequest (URL ++ "/simple/price")%string
            [("ids", coin); ("vs_currencies", "usd");
             ("include_last_updated_at", "true")])
      (fun reply =>
         response <- session_get reply ;;
         _ <- raise_for_status response ;;
         data <- response_json response ;;
         entry <- getitem data coin ;;
         price <- getitem entry "usd" ;;
         entry' <- getitem data coin ;;
         ts_unix <- getitem entry' "last_updated_at" ;;
         timestamp <- fromtimestamp ts_unix ;;
         let formatted_timestamp := strftime timestamp in
         Ok (price, formatted_timestamp)).

(** What tenacity does with the outcome of attempt [attempt_number] under
    [retry(wait=wait_exponential(multiplier=1, min=1, max=900),
           retry=retry_if_exception_type((requests.RequestException,)),
           before_sleep=update_retry_info)]: hand the value back, let the
    exception through, or run the hook and sleep before the next attempt.
    No [stop] is given, so a retryable failure is always retried. *)
Inductive Action (A : Type) : Type :=
| Return_ (v : A)
| Reraise (e : exn)
| DoSleep (logged : list Event) (secs : Z).
Arguments Return_ {A} v.
Arguments Reraise {A} e.
Arguments DoSleep {A} logged secs.

Definition retry_iter {A : Type} (attempt_number : Z) (outcome : Result A)
  : Action A :=
  match outcome with
  | Ok v => Return_ v
  | Raise e =>
      if retry_if_exception_type e then
        let sleep := wait_exponential 1 1 900 attempt_number in
        match update_retry_info attempt_number e with
        | Ok logged => DoSleep logged sleep
        | Raise e' => Reraise e'
        end
      else Reraise e
  end.

(** Lines 112-114: the window after the append and the line printed.  A
    price that is not a number makes [sum] raise [TypeError] in the very
    cycle that appended it, outside the [try], which ends the process: the
    window therefore only ever holds numbers, and the numeric reading is
    taken before the append. *)
Definition report (coin_symbol : string) (prices : deque Q) (price : json)
  (timestamp : string) : Result (deque Q * string) :=
  p <- as_number price ;;
  let prices' := append prices p in
  sma_ <- sma prices' ;;
  Ok (prices',
      ("[" ++ timestamp ++ "] " ++ coin_symbol ++ " " ++ ARROW ++ " USD: $"
       ++ format_2f p ++ ": SMA(" ++ decimal (len prices') ++ "): $"
       ++ format_2f sma_)%string).

(** *** The process as a transition system *)

Record Config : Type := mkConfig {
  coin : string;
  max_price_storage : Z
}.

Inductive Fn : Type := GetCoinSymbol | FetchPrice.

Inductive Ret : Type :=
| RetSymbol (symbol : string)
| RetPrice (price : json) (formatted_timestamp : string).

(** How [main] ended: it returned (the loop ran out or broke), or an
    exception left it uncaught (traceback, exit status 1). *)
Inductive Outcome : Type :=
| Returned
| Uncaught (e : exn).

(** Where the process is.  [PcEnter] is the entry of a decorated function's
    body (the flag check), [PcRequest] the point between the check and
    [session.get], [PcAwait] the request in flight, [PcLoop] the test of the
    while loop (line 106). *)
Inductive Pc : Type :=
| PcEnter (f : Fn) (attempt_number : Z)
| PcRequest (f : Fn) (attempt_number : Z) (req : Request)
            (k : GetResult -> Result Ret)
| PcAwait (f : Fn) (attempt_number : Z) (k : GetResult -> Result Ret)
| PcLoop
| PcExit (o : Outcome).

Record State : Type := mkState {
  pc : Pc;
  shutdown_requested : bool;
  prices : deque Q;
  coin_symbol : string;
  trace : list Event
}.

(** What the outside does next: deliver SIGINT, let the process take its
    next action, or complete the request in flight. *)
Inductive Input : Type :=
| Sigint
| Go
| Reply (g : GetResult).

Definition goto (p : Pc) (st : State) : State :=
  mkState p (shutdown_requested st) (prices st) (coin_symbol st) (trace st).

Definition emit (evs : list Event) (st : State) : State :=
  mkState (pc st) (shutdown_requested st) (prices st) (coin_symbol st)
          (trace st ++ evs).

(** [signal_handler] (lines 39-42) *)
Definition signal_handler (st : State) : State :=
  emit [EvLog INFO (MStr ("Shutting down" ++ ELLIPSIS)%string)]
       (mkState (pc st) true (prices st) (coin_symbol st) (trace st)).

Definition map_attempt {A B : Type} (g : A -> B) (a : Attempt A) : Attempt B :=
  match a with
  | Done r => Done (x <- r ;; Ok (g x))
  | Call req k => Call req (fun reply => x <- k reply ;; Ok (g x))
  end.

(** The decorated function [main] is calling, applied to its arguments. *)
Definition wrapped (cfg : Config) (f : Fn) (flag : bool) : Attempt Ret :=
  match f with
  | GetCoinSymbol => map_attempt RetSymbol (get_coin_symbol flag (coin cfg))
  | FetchPrice =>
      map_attempt (fun pt => RetPrice (fst pt) (snd pt))
                  (fetch_price flag (coin cfg))
  end.

(** An exception leaves the decorated call: line 105 is outside any [try],
    lines 109-111 log [str(e)] and break out of the loop. *)
Definition raised (f : Fn) (e : exn) (st : State) : State :=
  match f with
  | GetCoinSymbol => goto (PcExit (Uncaught e)) st
  | FetchPrice => goto (PcExit Returned) (emit [EvLog ERROR (MStrOf e)] st)
  end.

(** The decorated call returns: line 105 binds the symbol and the loop is
    reached; lines 112-115 report and sleep one second. *)
Definition returned (v : Ret) (st : State) : State :=
  match v with
  | RetSymbol s =>
      mkState PcLoop (shutdown_requested st) (prices st) s (trace st)
  | RetPrice price timestamp =>
      match report (coin_symbol st) (prices st) price timestamp with
      | Ok (prices', line) =>
          mkState PcLoop (shutdown_requested st) prices' (coin_symbol st)
                  (trace st ++ [EvPrint line; EvSleep 1])
      | Raise e => goto (PcExit (Uncaught e)) st
      end
  end.

(** The outcome of an attempt goes through tenacity. *)
Definition finish (f : Fn) (attempt_number : Z) (outcome : Result Ret)
  (st : State) : State :=
  match retry_iter attempt_number outcome with
  | Return_ v => returned v st
  | Reraise e => raised f e st
  | DoSleep logged secs =>
      goto (PcEnter f (attempt_number + 1)) (emit (logged ++ [EvSleep secs]) st)
  end.

Definition step (cfg : Config) (st : State) (i : Input) : State :=
  match pc st, i with
  | PcExit _, _ => st
  | _, Sigint => signal_handler st
  | PcEnter f n, Go =>
      match wrapped cfg f (shutdown_requested st) with
      | Done r => finish f n r st
      | Call req k => goto (PcRequest f n req k) st
      end
  | PcRequest f n req k, Go => goto (PcAwait f n k) (emit [EvGet req] st)
  | PcAwait f n k, Reply g => finish f n (k g) st
  | PcLoop, Go =>
      if shutdown_requested st then goto (PcExit Returned) st
      else goto (PcEnter FetchPrice 1) st
  | _, _ => st
  end.

Definition run (cfg : Config) (st : State) (inputs : list Input) : State :=
  fold_left (step cfg) inputs st.

(** Lines 135-136 and 104-105: the process up to the first call of
    [get_coin_symbol]. *)
Definition start (cfg : Config) : State :=
  let log := [EvLog INFO (MStr "Script is starting...")] in
  match deque_new Q (max_price_storage cfg) with
  | Ok d => mkState (PcEnter GetCoinSymbol 1) false d "" log
  | Raise e => mkState (PcExit (Uncaught e)) false (mkDeque 0 []) "" log
  end.

(** Inputs that carry a cycle or an attempt through without a signal. *)
Definition attempt_inputs (g : GetResult) : list Input := [Go; Go; Reply g].
Definition cycle_inputs (g : GetResult) : list Input := Go :: attempt_inputs g.

Definition count_gets (tr : list Event) : nat :=
  length (filter (fun ev => match ev with EvGet _ => true | _ => false end) tr).

Definition is_error_log (ev : Event) : bool :=
  match ev with EvLog ERROR _ => true | _ => false end.

Definition is_print (ev : Event) : bool :=
  match ev with EvPrint _ => true | _ => false end.

(** ** Vocabulary of the statements *)

(** An attempt stands between its flag check and its request. *)
Definition at_request (st : State) : Prop :=
  exists f n req k, pc st = PcRequest f n req k.

(** The request a decorated function issues and what it makes of the reply,
    when the flag is not set. *)
Definition request_of (cfg : Config) (f : Fn) : Request :=
  match wrapped cfg f false with
  | Call req _ => req
  | Done _ => mkRequest "" []
  end.

Definition outcome_of (cfg : Config) (f : Fn) (g : GetResult) : Result Ret :=
  match wrapped cfg f false with
  | Call _ k => k g
  | Done r => r
  end.

(** The message of an error response whose body is a JSON object with no
    ["status"] member or with an object under ["status"]: the
    ["error_message"] found there, else the text of the error. *)
Definition error_message (r : Response) : option LogMsg :=
  match body r with
  | Some (JObj m) =>
      match dict_lookup m "status" with
      | None => Some (MStrOf (HTTPError r))
      | Some (JObj m') =>
          Some (match dict_lookup m' "error_message" with
                | Some v => MJson v
                | None => MStrOf (HTTPError r)
                end)
      | Some _ => None
      end
  | _ => None
  end.

(** The diagnostic expected after the failure of attempt [k] on [r]. *)
Definition diagnostic (k : Z) (r : Response) : list Event :=
  if negb (k =? 0) && (k mod 5 =? 0) then
    match error_message r with
    | Some msg => [EvLog ERROR msg]
    | None => []
    end
  else [].

(** The trace expected of consecutive failed attempts, the first of them
    being attempt [k]. *)
Fixpoint failures_trace (req : Request) (k : Z) (rs : list Response)
  : list Event :=
  match rs with
  | [] => []
  | r :: rs' =>
      [EvGet req] ++ diagnostic k r ++ [EvSleep (Z.min 900 (1 * 2 ^ (k - 1)))]
      ++ failures_trace req (k + 1) rs'
  end.

Definition failure_inputs (rs : list Response) : list Input :=
  flat_map (fun r => attempt_inputs (Replied r)) rs.

(** An error response that the decorated function turns into an
    [HTTPError] and whose body the diagnostic hook can read. *)
Definition transient (cfg : Config) (f : Fn) (r : Response) : Prop :=
  outcome_of cfg f (Replied r) = Raise (HTTPError r) /\
  error_message r <> None.

(** The first expected member that a price document lacks. *)
Definition missing_field (coin : string) (m : list (string * json))
  : option string :=
  match dict_lookup m coin with
  | None => Some coin
  | Some (JObj m') =>
      match dict_lookup m' "usd", dict_lookup m' "last_updated_at" with
      | None, _ => Some "usd"
      | Some _, None => Some "last_updated_at"
      | Some _, Some _ => None
      end
  | Some _ => None
  end.

Definition count_error_logs (tr : list Event) : nat :=
  length (filter is_error_log tr).

(** A date read back: what [ord2ymd] returns for day [n + 1] is a date of
    the calendar whose ordinal is [n + 1] (checked by evaluation over one
    cycle of 400 years). *)
Definition check_day (n : Z) : bool :=
  let '(y, m, d) := ord2ymd (n + 1) in
  (ymd2ord y m d =? n + 1) && (n + 1 <=? days_before_year (y + 1))
  && (1 <=? y) && (y <=? 401)
  && (1 <=? m) && (m <=? 12) && (1 <=? d) && (d <=? days_in_month y m).

(** [P] holds of the [k] integers from [n] on. *)
Fixpoint holds_from (P : Z -> bool) (k : nat) (n : Z) : bool :=
  match k with
  | O => true
  | S k' => P n && holds_from P k' (n + 1)
  end.

(** Reading a decimal numeral back. *)
Definition read_decimal (s : string) : option Z :=
  option_map (fun d => Z.of_N (N.of_uint d)) (NilZero.uint_of_string s).

(** The epoch seconds that a UTC wall-clock reading stands for. *)
Definition seconds_of (t : datetime) : Z :=
  (ymd2ord (year t) (month t) (day t) - EPOCH_ORDINAL) * 86400
  + hour t * 3600 + minute t * 60 + second t.

(** A reading of the calendar and the clock, in the years the epoch
    timestamps of the supported range fall in. *)
Definition wall_clock (t : datetime) : Prop :=
  1970 <= year t <= 9999 /\ 1 <= month t <= 12 /\
  1 <= day t <= days_in_month (year t) (month t) /\
  0 <= hour t < 24 /\ 0 <= minute t < 60 /\ 0 <= second t < 60.

(** An amount rendered in cents: an optional sign, the whole part in
    groups of three, a point and two digits, the cents being the nearest to
    the value. *)
Definition usd_amount (x : Q) (s : string) : Prop :=
  exists units cents : Z,
    0 <= units /\ 0 <= cents < 100 /\
    (Qabs (inject_Z (units * 100 + cents) - Qabs x * 100) <= 1 # 2)%Q /\
    s = ((if Qlt_le_dec x 0 then "-" else "")
         ++ group3 (decimal units) ++ "." ++ pad2 cents)%string.

(** What holds of every state the process reaches: the symbol is in upper
    case and a pending request is the one of the function being called. *)
Definition reachable_inv (cfg : Config) (st : State) : Prop :=
  upper (coin_symbol st) = coin_symbol st /\
  match pc st with
  | PcRequest f _ req k => req = request_of cfg f /\ k = outcome_of cfg f
  | PcAwait f _ k => k = outcome_of cfg f
  | _ => True
  end.

(** Sample replies. *)
Definition symbol_reply : GetResult :=
  Replied (mkResponse 200 "" (Some (JObj [("symbol", JStr "btc")]))).

Definition price_reply (coin : string) (price : Q) (ts : Z) : GetResult :=
  Replied (mkResponse 200 ""
             (Some (JObj [(coin, JObj [("usd", JNum price);
                                       ("last_updated_at", JNum (inject_Z ts))])]))).

Definition error_response (status : Z) (message : string) : Response :=
  mkResponse status ""
    (Some (JObj [("status", JObj [("error_message", JStr message)])])).

Definition error_reply (status : Z) (message : string) : GetResult :=
  Replied (error_response status message).

(** ** Vocabulary of the further properties *)

Definition count_prints (tr : list Event) : nat :=
  length (filter is_print tr).

(** The requests issued since the last sleep. *)
Definition pending_gets (tr : list Event) : nat :=
  fold_left (fun n ev => match ev with
                         | EvSleep _ => O
                         | EvGet _ => S n
                         | _ => n
                         end) tr O.

(** The symbol is resolved (or the process is over). *)
Definition resolved (st : State) : Prop :=
  match pc st with
  | PcEnter GetCoinSymbol _ | PcRequest GetCoinSymbol _ _ _
  | PcAwait GetCoinSymbol _ _ => False
  | _ => True
  end.

Definition sleep_in_bounds (ev : Event) : Prop :=
  match ev with
  | EvSleep secs => 1 <= secs <= 900
  | _ => True
  end.

(** The window and the printed lines go together. *)
Definition window_inv (cfg : Config) (st : State) : Prop :=
  maxlen (prices st) = max_price_storage cfg /\
  len (prices st)
  = Z.min (Z.of_nat (count_prints (trace st))) (max_price_storage cfg).

(** The inputs of successful cycles for a list of prices and epoch seconds. *)
Definition observation_inputs (cfg : Config) (obs : list (Q * Z)) : list Input :=
  flat_map (fun o => cycle_inputs (price_reply (coin cfg) (fst o) (snd o))) obs.

(** An event that is no request, and no sleep out of bounds. *)
Definition quiet_event (ev : Event) : Prop :=
  sleep_in_bounds ev /\ forall req, ev <> EvGet req.

(** The symbol is being resolved. *)
Definition resolving (st : State) : Prop :=
  match pc st with
  | PcEnter GetCoinSymbol _ | PcRequest GetCoinSymbol _ _ _
  | PcAwait GetCoinSymbol _ _ => True
  | _ => False
  end.

(** What holds while the symbol is being resolved. *)
Definition nothing_yet (cfg : Config) (st : State) : Prop :=
  count_prints (trace st) = 0%nat /\
  items (prices st) = [] /\
  coin_symbol st = "" /\
  forall req, In (EvGet req) (trace st) -> req = request_of cfg GetCoinSymbol.

Definition is_lower (c : ascii) : bool :=
  let n := nat_of_ascii c in (97 <=? n)%nat && (n <=? 122)%nat.

Fixpoint has_lower (s : string) : bool :=
  match s with
  | EmptyString => false
  | String c s' => is_lower c || has_lower s'
  end.

Fixpoint strip_commas (s : string) : string :=
  match s with
  | EmptyString => EmptyString
  | String c s' =>
      if Ascii.eqb c "," then strip_commas s' else String c (strip_commas s')
  end.

(** What the pacing of requests keeps true at each point of the process. *)
Definition paced (st : State) : Prop :=
  let pending := pending_gets (trace st) in
  match pc st with
  | PcEnter f n | PcRequest f n _ _ =>
      1 <= n /\ (pending <= 1)%nat /\
      (2 <= n \/ f = GetCoinSymbol -> pending = 0%nat)
  | PcAwait f n _ =>
      1 <= n /\ (1 <= pending <= 2)%nat /\
      (2 <= n \/ f = GetCoinSymbol -> pending = 1%nat)
  | PcLoop => (pending <= 1)%nat
  | PcExit _ => (pending <= 2)%nat
  end.

(** * Properties *)

Unset Implicit Arguments.

(** Reduce the projections of a state; normalise two states to compare
    them; refute that a state is at the point before a request. *)
Ltac fields :=
  cbn [pc shutdown_requested prices coin_symbol trace goto emit signal_handler].

Ltac state_eq :=
  unfold signal_handler, goto, emit;
  cbn [pc shutdown_requested prices coin_symbol trace];
  rewrite <- ?app_assoc.

Ltac no_request :=
  let H := fresh "H" in
  intros (? & ? & ? & ? & H); cbn in H; congruence.

(** ** The sliding window *)

Section Window.
Context {A : Type}.

Lemma lastn_all (k : nat) (l : list A) :
  (length l <= k)%nat -> lastn k l = l.
Proof.
  intro H. unfold lastn.
  replace (length l - k)%nat with 0%nat by lia. reflexivity.
Qed.

Lemma length_lastn (k : nat) (l : list A) :
  length (lastn k l) = Nat.min k (length l).
Proof. unfold lastn. rewrite length_skipn. lia. Qed.

Lemma lastn_min (k : nat) (l : list A) :
  lastn (Nat.min k (length l)) l = lastn k l.
Proof. unfold lastn. f_equal. lia. Qed.

Lemma lastn_app_lastn (k : nat) (l l' : list A) :
  lastn k (lastn k l ++ l') = lastn k (l ++ l').
Proof.
  destruct (Nat.le_gt_cases (length l) k) as [Hle | Hgt].
  - now rewrite (lastn_all k l Hle).
  - unfold lastn at 1 3.
    rewrite !length_app, length_lastn, !skipn_app, length_lastn.
    unfold lastn. rewrite skipn_skipn. f_equal; f_equal; lia.
Qed.

Lemma skipn_1_tl (l : list A) : tl l = skipn 1 l.
Proof. now destruct l. Qed.

Lemma maxlen_append (d : deque A) (x : A) : maxlen (append d x) = maxlen d.
Proof. unfold append. cbv zeta. now destruct (_ <? _). Qed.

Lemma maxlen_push_all (vals : list A) (d : deque A) :
  maxlen (push_all d vals) = maxlen d.
Proof.
  revert d. induction vals as [| x vals IH]; intro d; cbn; [reflexivity |].
  unfold push_all in IH. now rewrite IH, maxlen_append.
Qed.

(** One append keeps the last [maxlen] items of what was there plus the
    new one, provided the deque was within its bound. *)
Lemma items_append (d : deque A) (x : A) :
  len d <= maxlen d ->
  items (append d x) = lastn (Z.to_nat (maxlen d)) (items d ++ [x]).
Proof.
  unfold len. intro Hinv. unfold append. cbv zeta.
  destruct (Z.ltb_spec (maxlen d) (Z.of_nat (length (items d ++ [x]))))
    as [Hlt | Hge]; cbn [items].
  - rewrite length_app in Hlt. cbn [length] in Hlt.
    rewrite skipn_1_tl. unfold lastn. f_equal.
    rewrite length_app. cbn [length]. lia.
  - symmetry. apply lastn_all. lia.
Qed.

Lemma len_append (d : deque A) (x : A) :
  len d <= maxlen d -> len (append d x) <= maxlen d.
Proof.
  intro Hinv. unfold len. rewrite (items_append d x Hinv), length_lastn.
  unfold len in Hinv. lia.
Qed.

Lemma push_all_snoc (d : deque A) (vals : list A) (x : A) :
  push_all d (vals ++ [x]) = append (push_all d vals) x.
Proof. unfold push_all. now rewrite fold_left_app. Qed.

(** The bound is an invariant of appending. *)
Lemma len_push_all (vals : list A) (d : deque A) :
  len d <= maxlen d -> len (push_all d vals) <= maxlen d.
Proof.
  induction vals as [| x vals IH] using rev_ind; intro Hinv; [exact Hinv |].
  rewrite push_all_snoc.
  rewrite <- (maxlen_push_all vals d). apply len_append.
  rewrite maxlen_push_all. auto.
Qed.

(** FIFO: after any sequence of appends the window holds the most recent
    [maxlen] values, oldest first. *)
Lemma items_push_all (vals : list A) (d : deque A) :
  len d <= maxlen d ->
  items (push_all d vals) = lastn (Z.to_nat (maxlen d)) (items d ++ vals).
Proof.
  intro Hinv. induction vals as [| x vals IH] using rev_ind.
  - cbn. rewrite app_nil_r. symmetry. apply lastn_all. unfold len in Hinv. lia.
  - rewrite push_all_snoc, items_append.
    + rewrite maxlen_push_all, IH, lastn_app_lastn. now rewrite app_assoc.
    + rewrite maxlen_push_all. now apply len_push_all.
Qed.

End Window.

Lemma fold_left_Qplus (l : list Q) (a : Q) :
  (fold_left Qplus l a == a + fold_right Qplus 0 l)%Q.
Proof.
  revert a. induction l as [| x l IH]; intro a; cbn.
  - ring.
  - rewrite IH. ring.
Qed.

Lemma py_sum_mean (l : list Q) :
  (py_sum l / inject_Z (Z.of_nat (length l)) == mean l)%Q.
Proof.
  unfold py_sum, mean. rewrite fold_left_Qplus. now rewrite Qplus_0_l.
Qed.

(** The guard of line 113 keeps the division away from an empty window. *)
Lemma sma_total (d : deque Q) :
  sma d = Ok (if 0 <? len d then (py_sum (items d) / inject_Z (len d))%Q else 0%Q).
Proof.
  unfold sma, truediv.
  destruct (Z.ltb_spec 0 (len d)) as [Hpos | Hle]; [| reflexivity].
  destruct (Z.eqb_spec (len d) 0) as [Hz | Hnz]; [lia | reflexivity].
Qed.



(** ** Backoff *)

Lemma wait_exponential_eq (k : Z) :
  1 <= k -> wait_exponential 1 1 900 k = Z.min 900 (1 * 2 ^ (k - 1)).
Proof.
  intro Hk. unfold wait_exponential.
  assert (Hpow : 1 <= 2 ^ (k - 1)).
  { change 1 with (2 ^ 0) at 1. apply Z.pow_le_mono_r; lia. }
  lia.
Qed.

Lemma wait_exponential_le (k : Z) : wait_exponential 1 1 900 k <= 900.
Proof. unfold wait_exponential. lia. Qed.

(** C2: the delay tenacity sleeps after the failure of attempt [k], that is
    before the [k]-th retry, is [min(900, 1 * 2^(k-1))]: 1, 2, 4, 8, ...,
    512 and 900 from then on; no attempt number gives more than 900; and
    this is the duration of the sleep the retrier schedules whenever a
    retryable failure gets past the diagnostic hook. *)
Theorem C2_backoff_delay (k : Z) :
  1 <= k ->
  wait_exponential 1 1 900 k = Z.min 900 (1 * 2 ^ (k - 1)) /\
  (forall j : Z, wait_exponential 1 1 900 j <= 900) /\
  map (wait_exponential 1 1 900) [1; 2; 3; 4; 5; 6; 7; 8; 9; 10; 11; 12]
  = [1; 2; 4; 8; 16; 32; 64; 128; 256; 512; 900; 900] /\
  (forall (A : Type) (e : exn) (logged : list Event),
      retry_if_exception_type e = true ->
      update_retry_info k e = Ok logged ->
      @retry_iter A k (Raise e) = DoSleep logged (Z.min 900 (1 * 2 ^ (k - 1)))).
Proof.
  intro Hk. split; [now apply wait_exponential_eq |].
  split; [exact wait_exponential_le |].
  split; [reflexivity |].
  intros A e logged Hretry Hhook. unfold retry_iter.
  now rewrite Hretry, Hhook, wait_exponential_eq.
Qed.

Lemma C2_backoff_delay_witness :
  1 <= 11 /\
  wait_exponential 1 1 900 11 = 900 /\
  @retry_iter Ret 11 (Raise ConnectionError) = DoSleep [] 900.
Proof.
  assert (H : 1 <= 11) by lia.
  destruct (C2_backoff_delay 11 H) as (Heq & _ & _ & Hiter).
  split; [exact H |]. split; [exact Heq |].
  exact (Hiter Ret ConnectionError [] eq_refl eq_refl).
Defined.

(** ** Capacity at construction *)

Lemma run_exit (cfg : Config) (inputs : list Input) (st : State) (o : Outcome) :
  pc st = PcExit o -> run cfg st inputs = st.
Proof.
  intro Hpc. induction inputs as [| i inputs IH]; [reflexivity |].
  cbn. unfold step. rewrite Hpc. exact IH.
Qed.

Lemma push_all_capacity_zero {A : Type} (vals : list A) :
  items (push_all (mkDeque 0 []) vals) = [].
Proof.
  rewrite items_push_all by (unfold len; cbn; lia).
  cbn [maxlen]. unfold lastn. cbn [Z.to_nat].
  rewrite Nat.sub_0_r. apply skipn_all.
Qed.




(** ** No division by zero *)

(** C10: for a capacity [C >= 0] the SMA of line 113 always has a value,
    never a [ZeroDivisionError]: the quotient is taken only of a non-empty
    window and the average of an empty one is 0; with capacity 0 the window
    is empty after every append, so each cycle reports the count 0 and the
    SMA 0. *)
Theorem C10_sma_never_divides_by_zero (C : Z) (d : deque Q) (vals : list Q) :
  0 <= C ->
  deque_new Q C = Ok d ->
  let w := push_all d vals in
  (exists average, sma w = Ok average) /\
  (items w = [] -> sma w = Ok 0%Q) /\
  (items w <> [] ->
   exists average, truediv (py_sum (items w)) (len w) = Ok average /\
                   sma w = Ok average) /\
  (C = 0 ->
   items w = [] /\ len w = 0 /\ sma w = Ok 0%Q /\
   forall (x : Q) (symbol timestamp : string),
     report symbol w (JNum x) timestamp
     = Ok (w, ("[" ++ timestamp ++ "] " ++ symbol ++ " " ++ ARROW ++ " USD: $"
               ++ format_2f x ++ ": SMA(0): $0.00")%string)).
Proof.
  intros HC Hnew w.
  assert (Hd : d = mkDeque C []).
  { unfold deque_new in Hnew.
    destruct (Z.ltb_spec C 0); [lia | now injection Hnew]. }
  split; [eexists; apply sma_total |]. split; [| split].
  - intro Hnil. rewrite sma_total. unfold len. now rewrite Hnil.
  - intro Hne. rewrite sma_total. unfold truediv.
    assert (Hpos : 0 < len w).
    { unfold len. destruct (items w); [congruence | cbn; lia]. }
    destruct (Z.ltb_spec 0 (len w)); [| lia].
    destruct (Z.eqb_spec (len w) 0); [lia |].
    eexists. split; reflexivity.
  - intro Hz. subst C d.
    assert (Hitems : items w = []) by apply push_all_capacity_zero.
    assert (Hw : forall x, append w x = w).
    { intro x. unfold append. cbv zeta.
      rewrite Hitems. unfold w at 1 2. rewrite maxlen_push_all. cbn.
      destruct w as [m its] eqn:Ew. cbn in Hitems. subst its.
      f_equal. change m with (maxlen (mkDeque m (@nil Q))). rewrite <- Ew.
      unfold w. now rewrite maxlen_push_all. }
    assert (Hsma : sma w = Ok 0%Q).
    { rewrite sma_total. unfold len. now rewrite Hitems. }
    split; [exact Hitems |]. split; [unfold len; now rewrite Hitems |].
    split; [exact Hsma |].
    intros x symbol timestamp. unfold report. cbn [as_number bind].
    rewrite Hw, Hsma. cbn [bind]. unfold len. rewrite Hitems. reflexivity.
Qed.

Lemma C10_sma_never_divides_by_zero_witness :
  let d := mkDeque 0 [] in
  0 <= 0 /\ deque_new Q 0 = Ok d /\
  sma (push_all d [5; 7]%Q) = Ok 0%Q /\
  len (push_all d [5; 7]%Q) = 0.
Proof.
  intro d.
  assert (H1 : 0 <= 0) by lia.
  assert (H2 : deque_new Q 0 = Ok d) by reflexivity.
  destruct (C10_sma_never_divides_by_zero 0 d [5; 7]%Q H1 H2) as (_ & _ & _ & Hz).
  destruct (Hz eq_refl) as (_ & Hlen & Hsma & _).
  split; [exact H1 |]. split; [exact H2 |]. split; [exact Hsma | exact Hlen].
Defined.

(** ** The transition system: frame lemmas *)

Lemma count_gets_app (a b : list Event) :
  count_gets (a ++ b) = (count_gets a + count_gets b)%nat.
Proof. unfold count_gets. now rewrite filter_app, length_app. Qed.

(** The hook logs at most one line and never anything else. *)
Lemma update_retry_info_logged (n : Z) (e : exn) (logged : list Event) :
  update_retry_info n e = Ok logged ->
  logged = [] \/ exists msg, logged = [EvLog ERROR msg].
Proof.
  unfold update_retry_info. cbv zeta.
  destruct (negb (n =? 0) && (n mod 5 =? 0)).
  - destruct (exn_response e) as [r |]; cbn [bind]; [| discriminate].
    destruct (response_json r) as [doc |]; cbn [bind]; [| discriminate].
    destruct (dict_get doc "status") as [status |]; cbn [bind]; [| discriminate].
    destruct (dict_get _ "error_message") as [msg |]; cbn [bind]; [| discriminate].
    intro H. injection H as <-. right. eauto.
  - intro H. injection H as <-. now left.
Qed.

Lemma update_retry_info_no_get (n : Z) (e : exn) (logged : list Event) :
  update_retry_info n e = Ok logged -> count_gets logged = 0%nat.
Proof.
  intro H. destruct (update_retry_info_logged n e logged H) as [-> | [msg ->]];
    reflexivity.
Qed.

(** Whatever the outcome of an attempt, handling it leaves the flag alone,
    issues no request and does not lead to the point before a request. *)
Lemma finish_frame (f : Fn) (n : Z) (r : Result Ret) (st : State) :
  shutdown_requested (finish f n r st) = shutdown_requested st /\
  count_gets (trace (finish f n r st)) = count_gets (trace st) /\
  ~ at_request (finish f n r st).
Proof.
  unfold finish, retry_iter.
  destruct r as [v | e].
  - unfold returned. destruct v as [s | price ts].
    + fields. repeat split. no_request.
    + destruct (report _ _ _ _) as [[prices' line] | e]; fields.
      * rewrite count_gets_app. split; [reflexivity |].
        split; [cbn; lia | no_request].
      * repeat split. no_request.
  - assert (Hraised : forall e0,
               shutdown_requested (raised f e0 st) = shutdown_requested st /\
               count_gets (trace (raised f e0 st)) = count_gets (trace st) /\
               ~ at_request (raised f e0 st)).
    { intro e0. unfold raised. destruct f; fields.
      - repeat split. no_request.
      - rewrite count_gets_app. split; [reflexivity |].
        split; [cbn; lia | no_request]. }
    destruct (retry_if_exception_type e); [| apply Hraised].
    destruct (update_retry_info n e) as [logged | e'] eqn:Hhook; [| apply Hraised].
    fields. rewrite !count_gets_app, (update_retry_info_no_get n e logged Hhook).
    split; [reflexivity |]. split; [cbn; lia | no_request].
Qed.

(** With the flag set, both decorated bodies stop before their request. *)
Lemma wrapped_shutdown (cfg : Config) (f : Fn) :
  wrapped cfg f true
  = Done (Raise (ShutdownRequested "Shutdown requested, aborting fetch.")).
Proof. now destruct f. Qed.

Lemma step_flag_frame (cfg : Config) (st : State) (i : Input) :
  i <> Sigint -> shutdown_requested (step cfg st i) = shutdown_requested st.
Proof.
  intro Hi. unfold step.
  destruct (pc st) as [f n | f n req k | f n k | | o] eqn:Hpc;
    destruct i as [| | g]; try congruence; try reflexivity.
  - destruct (wrapped cfg f (shutdown_requested st)); [apply finish_frame | reflexivity].
  - apply finish_frame.
  - destruct (shutdown_requested st) eqn:E; fields; exact E.
Qed.

Lemma step_flag_monotone (cfg : Config) (st : State) (i : Input) :
  shutdown_requested st = true -> shutdown_requested (step cfg st i) = true.
Proof.
  intro Hflag. destruct i as [| | g].
  - unfold step. destruct (pc st); try reflexivity. exact Hflag.
  - rewrite step_flag_frame; [exact Hflag | discriminate].
  - rewrite step_flag_frame; [exact Hflag | discriminate].
Qed.

Lemma run_flag_monotone (cfg : Config) (inputs : list Input) (st : State) :
  shutdown_requested st = true -> shutdown_requested (run cfg st inputs) = true.
Proof.
  revert st. induction inputs as [| i inputs IH]; intros st Hflag; [exact Hflag |].
  cbn. apply IH. now apply step_flag_monotone.
Qed.

Lemma run_app (cfg : Config) (st : State) (a b : list Input) :
  run cfg st (a ++ b) = run cfg (run cfg st a) b.
Proof. unfold run. apply fold_left_app. Qed.

Lemma run_flag_set_by_sigint (cfg : Config) (inputs : list Input) (st : State) :
  shutdown_requested st = false ->
  shutdown_requested (run cfg st inputs) = true -> In Sigint inputs.
Proof.
  revert st. induction inputs as [| i inputs IH]; intros st Hoff Hon.
  - cbn in Hon. congruence.
  - destruct i as [| | g]; [now left | right | right].
    + apply (IH (step cfg st Go)); [| exact Hon].
      rewrite step_flag_frame; [exact Hoff | discriminate].
    + apply (IH (step cfg st (Reply g))); [| exact Hon].
      rewrite step_flag_frame; [exact Hoff | discriminate].
Qed.

(** ** The shutdown flag *)

(** C9: the flag starts false; no action of the process other than the
    delivery of SIGINT changes it, and the handler sets it to true; so along
    every run it goes from false to true at most once and, once true, stays
    true for the rest of the run; it is true only if a SIGINT was
    delivered. *)
Theorem C9_shutdown_flag_monotone (cfg : Config) :
  shutdown_requested (start cfg) = false /\
  (forall st i, i <> Sigint ->
                shutdown_requested (step cfg st i) = shutdown_requested st) /\
  (forall st, shutdown_requested (signal_handler st) = true) /\
  (forall st i, shutdown_requested st = true ->
                shutdown_requested (step cfg st i) = true) /\
  (forall before after,
      shutdown_requested (run cfg (start cfg) before) = true ->
      shutdown_requested (run cfg (start cfg) (before ++ after)) = true) /\
  (forall inputs,
      shutdown_requested (run cfg (start cfg) inputs) = true ->
      In Sigint inputs).
Proof.
  assert (Hstart : shutdown_requested (start cfg) = false).
  { unfold start. now destruct (deque_new Q (max_price_storage cfg)). }
  split; [exact Hstart |].
  split; [intros st i; apply step_flag_frame |].
  split; [reflexivity |].
  split; [intros st i; apply step_flag_monotone |].
  split.
  - intros before after Hset. rewrite run_app. now apply run_flag_monotone.
  - intros inputs. now apply run_flag_set_by_sigint.
Qed.

Lemma C9_shutdown_flag_monotone_witness :
  let cfg := mkConfig "bitcoin" 10 in
  shutdown_requested (run cfg (start cfg) [Go; Sigint]) = true /\
  shutdown_requested
    (run cfg (start cfg) ([Go; Sigint] ++ [Go; Reply Failed; Go; Sigint; Go]))
  = true.
Proof.
  intro cfg.
  assert (H : shutdown_requested (run cfg (start cfg) [Go; Sigint]) = true)
    by reflexivity.
  split; [exact H |].
  exact (proj1 (proj2 (proj2 (proj2 (proj2 (C9_shutdown_flag_monotone cfg)))))
           [Go; Sigint] [Go; Reply Failed; Go; Sigint; Go] H).
Defined.

(** ** No request after shutdown *)

Lemma step_quiet (cfg : Config) (st : State) (i : Input) :
  shutdown_requested st = true -> ~ at_request st ->
  count_gets (trace (step cfg st i)) = count_gets (trace st) /\
  ~ at_request (step cfg st i).
Proof.
  intros Hflag Hnot.
  assert (Hsig : pc (signal_handler st) = pc st /\
                 count_gets (trace (signal_handler st)) = count_gets (trace st)).
  { fields. rewrite count_gets_app. split; [reflexivity | cbn; lia]. }
  assert (Hsame : count_gets (trace st) = count_gets (trace st) /\ ~ at_request st)
    by (split; [reflexivity | exact Hnot]).
  unfold step.
  destruct (pc st) as [f n | f n req k | f n k | | o] eqn:Hpc.
  - destruct i as [| | g]; [| | exact Hsame].
    + split; [apply Hsig |]. intros (f' & n' & req & k & H).
      rewrite (proj1 Hsig) in H. congruence.
    + rewrite Hflag, wrapped_shutdown. apply finish_frame.
  - exfalso. apply Hnot. now exists f, n, req, k.
  - destruct i as [| | g]; [| exact Hsame |].
    + split; [apply Hsig |]. intros (f' & n' & req & k' & H).
      rewrite (proj1 Hsig) in H. congruence.
    + apply finish_frame.
  - destruct i as [| | g]; [| | exact Hsame].
    + split; [apply Hsig |]. intros (f' & n' & req & k' & H).
      rewrite (proj1 Hsig) in H. congruence.
    + rewrite Hflag. fields. split; [reflexivity | no_request].
  - exact Hsame.
Qed.

Lemma run_quiet (cfg : Config) (inputs : list Input) (st : State) :
  shutdown_requested st = true -> ~ at_request st ->
  count_gets (trace (run cfg st inputs)) = count_gets (trace st).
Proof.
  revert st. induction inputs as [| i inputs IH]; intros st Hflag Hnot;
    [reflexivity |].
  change (run cfg st (i :: inputs)) with (run cfg (step cfg st i) inputs).
  destruct (step_quiet cfg st i Hflag Hnot) as [Hcount Hnot'].
  rewrite IH; [exact Hcount | now apply step_flag_monotone | exact Hnot'].
Qed.


Lemma run_cons (cfg : Config) (st : State) (i : Input) (inputs : list Input) :
  run cfg st (i :: inputs) = run cfg (step cfg st i) inputs.
Proof. reflexivity. Qed.

(** An attempt that had passed its check when the flag was set may still
    issue its one request; nothing follows it. *)
Lemma run_in_flight (cfg : Config) (inputs : list Input) (st : State) :
  shutdown_requested st = true ->
  (count_gets (trace (run cfg st inputs)) <= count_gets (trace st) + 1)%nat.
Proof.
  revert st. induction inputs as [| i inputs IH]; intros st Hflag; [cbn; lia |].
  rewrite run_cons.
  destruct (pc st) as [f n | f n req k | f n k | | o] eqn:Hpc.
  2: { destruct i as [| | g].
       - specialize (IH (step cfg st Sigint) (step_flag_monotone cfg st Sigint Hflag)).
         unfold step in IH |- *. rewrite Hpc in IH |- *.
         revert IH. fields. rewrite count_gets_app. cbn. lia.
       - rewrite run_quiet.
         + unfold step. rewrite Hpc. fields. rewrite count_gets_app. cbn. lia.
         + now apply step_flag_monotone.
         + unfold step. rewrite Hpc. no_request.
       - replace (step cfg st (Reply g)) with st
           by (unfold step; now rewrite Hpc).
         now apply IH. }
  all: assert (Hnot : ~ at_request st)
    by (intros (f' & n' & req' & k' & H); congruence).
  all: rewrite <- run_cons, (run_quiet cfg (i :: inputs) st Hflag Hnot); lia.
Qed.

(** C3: once the flag is set, an attempt of either decorated function
    stops at its check with [ShutdownRequested], which the retrier lets
    through instead of retrying, and the process ends without a request;
    the poll loop leaves at its test; and in whatever follows no request
    is issued, unless an attempt had already passed its check, in which
    case that one request is the last. *)
Theorem C3_no_request_after_shutdown (cfg : Config) (st : State) :
  shutdown_requested st = true ->
  let stop := ShutdownRequested "Shutdown requested, aborting fetch." in
  (forall f n,
      pc st = PcEnter f n ->
      wrapped cfg f (shutdown_requested st) = Done (Raise stop) /\
      retry_if_exception_type stop = false /\
      step cfg st Go = raised f stop st /\
      (exists o, pc (step cfg st Go) = PcExit o) /\
      count_gets (trace (step cfg st Go)) = count_gets (trace st)) /\
  (pc st = PcLoop -> step cfg st Go = goto (PcExit Returned) st) /\
  (~ at_request st ->
   forall inputs,
     count_gets (trace (run cfg st inputs)) = count_gets (trace st)) /\
  (forall inputs,
      (count_gets (trace (run cfg st inputs)) <= count_gets (trace st) + 1)%nat).
Proof.
  intros Hflag stop. split; [| split; [| split]].
  - intros f n Hpc. rewrite Hflag.
    assert (Hstep : step cfg st Go = raised f stop st).
    { unfold step. rewrite Hpc, Hflag, wrapped_shutdown. reflexivity. }
    split; [apply wrapped_shutdown |]. split; [reflexivity |].
    split; [exact Hstep |]. rewrite Hstep. unfold raised.
    destruct f; fields.
    + split; [eauto | reflexivity].
    + split; [eauto |]. rewrite count_gets_app. cbn. lia.
  - intro Hpc. unfold step. now rewrite Hpc, Hflag.
  - intros Hnot inputs. now apply run_quiet.
  - intro inputs. now apply run_in_flight.
Qed.

Lemma C3_no_request_after_shutdown_witness :
  let cfg := mkConfig "bitcoin" 10 in
  let st := run cfg (start cfg) (attempt_inputs symbol_reply ++ [Go; Sigint]) in
  shutdown_requested st = true /\
  pc st = PcEnter FetchPrice 1 /\
  pc (step cfg st Go) = PcExit Returned /\
  count_gets (trace (run cfg st (attempt_inputs (error_reply 500 "x")
                                 ++ cycle_inputs symbol_reply)))
  = count_gets (trace st).
Proof.
  intros cfg st.
  assert (Hflag : shutdown_requested st = true) by reflexivity.
  assert (Hpc : pc st = PcEnter FetchPrice 1) by reflexivity.
  destruct (C3_no_request_after_shutdown cfg st Hflag) as (Hattempt & _ & Hquiet & _).
  destruct (Hattempt FetchPrice 1 Hpc) as (_ & _ & Hstep & _ & _).
  split; [exact Hflag |]. split; [exact Hpc |]. split.
  - rewrite Hstep. reflexivity.
  - apply Hquiet. intros (f & n & req & k & H). rewrite Hpc in H. discriminate H.
Defined.

(** ** Attempts *)

Lemma wrapped_call (cfg : Config) (f : Fn) :
  wrapped cfg f false = Call (request_of cfg f) (outcome_of cfg f).
Proof. now destruct f. Qed.

Lemma finish_goto (f : Fn) (n : Z) (r : Result Ret) (p : Pc) (st : State) :
  finish f n r (goto p st) = finish f n r st.
Proof.
  unfold finish. destruct (retry_iter n r) as [v | e | logged secs].
  - unfold returned. destruct v; [reflexivity |]. fields.
    now destruct (report _ _ _ _) as [[? ?] |].
  - now destruct f.
  - reflexivity.
Qed.

(** An attempt that no signal interrupts: check, request, reply. *)
Lemma attempt_run (cfg : Config) (f : Fn) (n : Z) (g : GetResult) (st : State) :
  pc st = PcEnter f n -> shutdown_requested st = false ->
  run cfg st (attempt_inputs g)
  = finish f n (outcome_of cfg f g) (emit [EvGet (request_of cfg f)] st).
Proof.
  intros Hpc Hflag. unfold attempt_inputs. rewrite !run_cons.
  assert (H1 : step cfg st Go
               = goto (PcRequest f n (request_of cfg f) (outcome_of cfg f)) st).
  { unfold step. now rewrite Hpc, Hflag, wrapped_call. }
  rewrite H1. cbn [run fold_left]. unfold step at 2. fields.
  unfold step. fields. rewrite finish_goto.
  exact (finish_goto f n (outcome_of cfg f g)
           (PcRequest f n (request_of cfg f) (outcome_of cfg f))
           (emit [EvGet (request_of cfg f)] st)).
Qed.

Lemma outcome_failed (cfg : Config) (f : Fn) :
  outcome_of cfg f Failed = Raise ConnectionError.
Proof. now destruct f. Qed.

Lemma outcome_not_found (cfg : Config) (r : Response) :
  status_code r = 404 ->
  outcome_of cfg GetCoinSymbol (Replied r) = Raise (Exception_ (text r)).
Proof.
  intro H. cbn. now rewrite H.
Qed.

Lemma outcome_http_error (cfg : Config) (f : Fn) (r : Response) :
  400 <= status_code r < 600 ->
  (f = GetCoinSymbol -> status_code r <> 404) ->
  outcome_of cfg f (Replied r) = Raise (HTTPError r).
Proof.
  intros Hrange H404.
  assert (Hraise : raise_for_status r = Raise (HTTPError r)).
  { unfold raise_for_status.
    destruct (Z.leb_spec 400 (status_code r)); [| lia].
    destruct (Z.ltb_spec (status_code r) 600); [reflexivity | lia]. }
  destruct f; cbn.
  - destruct (Z.eqb_spec (status_code r) 404) as [E | _]; [now elim H404 |].
    now rewrite Hraise.
  - now rewrite Hraise.
Qed.

(** ** Not found *)

(** C5: when an attempt of [get_coin_symbol] is answered with status 404,
    the function raises the plain [Exception] carrying the response text;
    the retrier does not retry it; it leaves [main] uncaught, so the
    process ends with that error after this one request: no sleep, no
    further request, no poll cycle, whatever happens afterwards. *)
Theorem C5_not_found_is_terminal (cfg : Config) (r : Response) :
  status_code r = 404 ->
  let not_found := Exception_ (text r) in
  outcome_of cfg GetCoinSymbol (Replied r) = Raise not_found /\
  retry_if_exception_type not_found = false /\
  (forall n, @retry_iter Ret n (Raise not_found) = Reraise not_found) /\
  (forall st n,
      pc st = PcAwait GetCoinSymbol n (outcome_of cfg GetCoinSymbol) ->
      step cfg st (Reply (Replied r)) = goto (PcExit (Uncaught not_found)) st) /\
  (forall st n,
      pc st = PcEnter GetCoinSymbol n -> shutdown_requested st = false ->
      let st' := run cfg st (attempt_inputs (Replied r)) in
      pc st' = PcExit (Uncaught not_found) /\
      trace st' = trace st ++ [EvGet (request_of cfg GetCoinSymbol)] /\
      forall inputs, run cfg st' inputs = st').
Proof.
  intros H404 not_found.
  assert (Hout : outcome_of cfg GetCoinSymbol (Replied r) = Raise not_found)
    by now apply outcome_not_found.
  split; [exact Hout |]. split; [reflexivity |]. split; [reflexivity |].
  split.
  - intros st n Hpc. unfold step. rewrite Hpc, Hout. reflexivity.
  - intros st n Hpc Hflag st'.
    assert (Hst' : st' = goto (PcExit (Uncaught not_found))
                           (emit [EvGet (request_of cfg GetCoinSymbol)] st)).
    { unfold st'. rewrite (attempt_run cfg GetCoinSymbol n _ st Hpc Hflag), Hout.
      reflexivity. }
    rewrite Hst'. fields. split; [reflexivity |]. split; [reflexivity |].
    intro inputs. now apply run_exit with (o := Uncaught not_found).
Qed.

Lemma C5_not_found_is_terminal_witness :
  let cfg := mkConfig "nosuchcoin" 10 in
  let r := mkResponse 404 "coin not found" None in
  status_code r = 404 /\
  pc (start cfg) = PcEnter GetCoinSymbol 1 /\
  run cfg (start cfg) (attempt_inputs (Replied r) ++ cycle_inputs symbol_reply)
  = mkState (PcExit (Uncaught (Exception_ (text r)))) false (mkDeque 10 []) ""
      [EvLog INFO (MStr "Script is starting...");
       EvGet (mkRequest "https://api.coingecko.com/api/v3/coins/nosuchcoin" [])].
Proof.
  intros cfg r.
  assert (H404 : status_code r = 404) by reflexivity.
  assert (Hpc : pc (start cfg) = PcEnter GetCoinSymbol 1) by reflexivity.
  destruct (C5_not_found_is_terminal cfg r H404) as (_ & _ & _ & _ & Hrun).
  destruct (Hrun (start cfg) 1 Hpc eq_refl) as (Hexit & Htrace & Hstay).
  split; [exact H404 |]. split; [exact Hpc |].
  rewrite run_app, Hstay. reflexivity.
Defined.

(** ** Consecutive failures *)

Lemma hook_off_cadence (k : Z) (e : exn) :
  k mod 5 <> 0 -> update_retry_info k e = Ok [].
Proof.
  intro H. unfold update_retry_info. cbv zeta.
  destruct (Z.eqb_spec (k mod 5) 0); [contradiction |].
  now rewrite andb_false_r.
Qed.

Lemma hook_diagnostic (k : Z) (r : Response) :
  error_message r <> None ->
  update_retry_info k (HTTPError r) = Ok (diagnostic k r).
Proof.
  unfold update_retry_info, diagnostic. cbv zeta.
  destruct (negb (k =? 0) && (k mod 5 =? 0)); [| reflexivity].
  unfold error_message. cbn [exn_response bind]. unfold response_json.
  destruct (body r) as [[| | | | | m] |]; try congruence.
  cbn [bind dict_get].
  destruct (dict_lookup m "status") as [[| | | | | m'] |]; try congruence;
    intros _; reflexivity.
Qed.

Lemma count_error_logs_app (a b : list Event) :
  count_error_logs (a ++ b) = (count_error_logs a + count_error_logs b)%nat.
Proof. unfold count_error_logs. now rewrite filter_app, length_app. Qed.

Lemma count_diagnostic (k : Z) (r : Response) :
  1 <= k -> error_message r <> None ->
  Z.of_nat (count_error_logs (diagnostic k r)) = k / 5 - (k - 1) / 5.
Proof.
  intros Hk Hmsg. unfold diagnostic.
  destruct (Z.eqb_spec k 0) as [E | _]; [lia |]. cbn [negb andb].
  destruct (Z.eqb_spec (k mod 5) 0) as [Hmod | Hmod].
  - destruct (error_message r); [| congruence]. cbn.
    Z.div_mod_to_equations. lia.
  - cbn. Z.div_mod_to_equations. lia.
Qed.

(** Among the first [n] failed attempts, those numbered 5, 10, ... log. *)
Lemma count_failures_trace (req : Request) (rs : list Response) (k : Z) :
  1 <= k -> Forall (fun r => error_message r <> None) rs ->
  Z.of_nat (count_error_logs (failures_trace req k rs))
  = (k + Z.of_nat (length rs) - 1) / 5 - (k - 1) / 5.
Proof.
  revert k. induction rs as [| r rs IH]; intros k Hk Hall.
  - cbn [failures_trace length]. replace (k + Z.of_nat 0 - 1) with (k - 1) by lia.
    cbn. lia.
  - inversion Hall as [| r' rs' Hr Hrs]; subst.
    cbn [failures_trace]. rewrite !count_error_logs_app, !Nat2Z.inj_add.
    rewrite (count_diagnostic k r Hk Hr), (IH (k + 1)) by (lia || assumption).
    cbn [length]. change (count_error_logs [EvGet req]) with 0%nat.
    change (count_error_logs [EvSleep (Z.min 900 (1 * 2 ^ (k - 1)))]) with 0%nat.
    replace (k + 1 - 1) with k by lia.
    replace (k + 1 + Z.of_nat (length rs) - 1)
      with (k + Z.of_nat (S (length rs)) - 1) by lia.
    lia.
Qed.

(** A retryable failure that gets past the hook is followed by the hook's
    line, the backoff sleep and the next attempt. *)
Lemma retried_attempt (cfg : Config) (f : Fn) (k : Z) (g : GetResult)
  (e : exn) (logged : list Event) (st : State) :
  pc st = PcEnter f k -> shutdown_requested st = false ->
  outcome_of cfg f g = Raise e -> retry_if_exception_type e = true ->
  update_retry_info k e = Ok logged ->
  run cfg st (attempt_inputs g)
  = goto (PcEnter f (k + 1))
      (emit ([EvGet (request_of cfg f)] ++ logged
             ++ [EvSleep (wait_exponential 1 1 900 k)]) st).
Proof.
  intros Hpc Hflag Hout Hretry Hhook.
  rewrite (attempt_run cfg f k g st Hpc Hflag), Hout.
  unfold finish, retry_iter. rewrite Hretry, Hhook. state_eq. reflexivity.
Qed.

Lemma run_failures (cfg : Config) (f : Fn) (rs : list Response) (k : Z)
  (st : State) :
  1 <= k -> pc st = PcEnter f k -> shutdown_requested st = false ->
  Forall (transient cfg f) rs ->
  run cfg st (failure_inputs rs)
  = goto (PcEnter f (k + Z.of_nat (length rs)))
      (emit (failures_trace (request_of cfg f) k rs) st).
Proof.
  revert k st. induction rs as [| r rs IH]; intros k st Hk Hpc Hflag Hall.
  - cbn [failure_inputs flat_map run fold_left failures_trace length].
    replace (k + Z.of_nat 0) with k by lia. rewrite <- Hpc.
    destruct st. state_eq. now rewrite app_nil_r.
  - inversion Hall as [| r' rs' [Hout Hmsg] Hrs]; subst.
    unfold failure_inputs. cbn [flat_map]. fold (failure_inputs rs).
    rewrite run_app.
    rewrite (retried_attempt cfg f k (Replied r) (HTTPError r) (diagnostic k r) st
               Hpc Hflag Hout eq_refl (hook_diagnostic k r Hmsg)).
    rewrite (IH (k + 1)); [| lia | reflexivity | exact Hflag | exact Hrs].
    rewrite (wait_exponential_eq k Hk). cbn [length failures_trace].
    state_eq. f_equal. f_equal. lia.
Qed.

(** ** Diagnostics *)




(** ** Failures of [fetch_price] *)

Lemma outcome_missing_field (cfg : Config) (r : Response)
  (m : list (string * json)) (key : string) :
  ~ 400 <= status_code r < 600 ->
  body r = Some (JObj m) ->
  missing_field (coin cfg) m = Some key ->
  outcome_of cfg FetchPrice (Replied r) = Raise (KeyError key).
Proof.
  intros Hstatus Hbody Hmissing.
  assert (Hok : raise_for_status r = Ok tt).
  { unfold raise_for_status.
    destruct (Z.leb_spec 400 (status_code r)); [| reflexivity].
    destruct (Z.ltb_spec (status_code r) 600); [lia | reflexivity]. }
  cbn. rewrite Hok. cbn [bind]. unfold response_json. rewrite Hbody.
  cbn [bind getitem]. unfold missing_field in Hmissing.
  destruct (dict_lookup m (coin cfg)) as [[| | | | | m'] |];
    try discriminate; cbn [bind getitem].
  - destruct (dict_lookup m' "usd"); cbn [bind].
    + destruct (dict_lookup m' "last_updated_at"); [discriminate |].
      now injection Hmissing as <-.
    + now injection Hmissing as <-.
  - now injection Hmissing as <-.
Qed.

(** C6, the claim on a malformed payload: the symbol is resolved, then the
    price request is answered with status 200 and the document [{}].  The
    [KeyError] is not retried: it reaches the poll loop, which logs it and
    stops, after that one price request. *)
Lemma C6_missing_fields_are_terminal :
  let cfg := mkConfig "bitcoin" 10 in
  let malformed := Replied (mkResponse 200 "{}" (Some (JObj []))) in
  let st := run cfg (start cfg)
              (attempt_inputs symbol_reply ++ cycle_inputs malformed) in
  outcome_of cfg FetchPrice malformed = Raise (KeyError "bitcoin") /\
  retry_if_exception_type (KeyError "bitcoin") = false /\
  pc st = PcExit Returned /\
  trace st
  = [EvLog INFO (MStr "Script is starting...");
     EvGet (request_of cfg GetCoinSymbol);
     EvGet (request_of cfg FetchPrice);
     EvLog ERROR (MStrOf (KeyError "bitcoin"))] /\
  forall inputs, run cfg st inputs = st.
Proof.
  intros cfg malformed st. repeat split.
  intro inputs. now apply run_exit with (o := Returned).
Qed.

(** C6 as amended: every response to [fetch_price] with an HTTP error
    status (400 to 599) and every transport failure is a
    [RequestException], which the retrier classifies as retryable: when the
    diagnostic hook completes, the retrier sleeps and attempts again, and
    the poll loop does not see the error; a run of such failures with
    readable bodies leaves the call still retrying.  A response with a
    success status whose document lacks the coin, its ["usd"] or its
    ["last_updated_at"] raises [KeyError], which is not retried: the poll
    loop logs it and stops. *)
Theorem C6_fetch_price_failures (cfg : Config) :
  (forall r,
      400 <= status_code r < 600 ->
      outcome_of cfg FetchPrice (Replied r) = Raise (HTTPError r) /\
      retry_if_exception_type (HTTPError r) = true) /\
  (outcome_of cfg FetchPrice Failed = Raise ConnectionError /\
   retry_if_exception_type ConnectionError = true) /\
  (forall st k g e logged,
      pc st = PcEnter FetchPrice k -> shutdown_requested st = false ->
      outcome_of cfg FetchPrice g = Raise e ->
      retry_if_exception_type e = true ->
      update_retry_info k e = Ok logged ->
      run cfg st (attempt_inputs g)
      = goto (PcEnter FetchPrice (k + 1))
          (emit ([EvGet (request_of cfg FetchPrice)] ++ logged
                 ++ [EvSleep (wait_exponential 1 1 900 k)]) st)) /\
  (forall st rs,
      pc st = PcEnter FetchPrice 1 -> shutdown_requested st = false ->
      Forall (fun r => 400 <= status_code r < 600 /\ error_message r <> None) rs ->
      run cfg st (failure_inputs rs)
      = goto (PcEnter FetchPrice (1 + Z.of_nat (length rs)))
          (emit (failures_trace (request_of cfg FetchPrice) 1 rs) st)) /\
  (forall st k r m key,
      pc st = PcEnter FetchPrice k -> shutdown_requested st = false ->
      ~ 400 <= status_code r < 600 ->
      body r = Some (JObj m) ->
      missing_field (coin cfg) m = Some key ->
      outcome_of cfg FetchPrice (Replied r) = Raise (KeyError key) /\
      retry_if_exception_type (KeyError key) = false /\
      run cfg st (attempt_inputs (Replied r))
      = goto (PcExit Returned)
          (emit [EvGet (request_of cfg FetchPrice);
                 EvLog ERROR (MStrOf (KeyError key))] st)).
Proof.
  split; [| split; [| split; [| split]]].
  - intros r Hstatus. split; [| reflexivity].
    apply outcome_http_error; [exact Hstatus | discriminate].
  - split; reflexivity.
  - intros st k g e logged. apply retried_attempt.
  - intros st rs Hpc Hflag Hall.
    apply run_failures; [lia | exact Hpc | exact Hflag |].
    eapply Forall_impl; [| exact Hall].
    intros r [Hstatus Hmsg]. split; [| exact Hmsg].
    apply outcome_http_error; [exact Hstatus | discriminate].
  - intros st k r m key Hpc Hflag Hstatus Hbody Hmissing.
    assert (Hout := outcome_missing_field cfg r m key Hstatus Hbody Hmissing).
    split; [exact Hout |]. split; [reflexivity |].
    rewrite (attempt_run cfg FetchPrice k (Replied r) st Hpc Hflag), Hout.
    unfold finish, retry_iter. cbn [retry_if_exception_type raised].
    state_eq. reflexivity.
Qed.

Lemma C6_fetch_price_failures_witness :
  let cfg := mkConfig "bitcoin" 10 in
  let st := run cfg (start cfg) (attempt_inputs symbol_reply ++ [Go]) in
  let rs := repeat (error_response 503 "busy") 7 in
  pc (run cfg st (failure_inputs rs)) = PcEnter FetchPrice 8 /\
  pc (run cfg st (attempt_inputs
                    (Replied (mkResponse 200 ""
                                (Some (JObj [("bitcoin", JObj [("usd", JNum 1)])]))))))
  = PcExit Returned.
Proof.
  intros cfg st rs.
  destruct (C6_fetch_price_failures cfg) as (_ & _ & _ & Hrun & Hmissing).
  split.
  - rewrite (Hrun st rs); [reflexivity | reflexivity | reflexivity |].
    apply Forall_forall. intros r Hin. apply repeat_spec in Hin. subst r.
    split; [cbn; lia | discriminate].
  - destruct (Hmissing st 1
                (mkResponse 200 "" (Some (JObj [("bitcoin", JObj [("usd", JNum 1)])])))
                [("bitcoin", JObj [("usd", JNum 1)])] "last_updated_at"
                eq_refl eq_refl) as (_ & _ & Hrun');
      [cbn; lia | reflexivity | reflexivity |].
    rewrite Hrun'. reflexivity.
Defined.

(** ** The calendar *)

Lemma holds_from_sound (P : Z -> bool) (k : nat) (n i : Z) :
  holds_from P k n = true -> n <= i < n + Z.of_nat k -> P i = true.
Proof.
  revert n. induction k as [| k IH]; intros n Hcheck Hi; [lia |].
  cbn [holds_from] in Hcheck. apply andb_prop in Hcheck as [Hday Hrest].
  destruct (Z.eq_dec i n) as [-> | Hne]; [exact Hday |].
  apply (IH (n + 1)); [exact Hrest | lia].
Qed.

Lemma cycle_checked : holds_from check_day (Z.to_nat DI400Y) 0 = true.
Proof. vm_cast_no_check (eq_refl true). Qed.

Lemma is_leap_period (y q : Z) : is_leap (y + 400 * q) = is_leap y.
Proof.
  unfold is_leap.
  replace (y + 400 * q) with (y + (100 * q) * 4) at 1 by lia.
  replace (y + 400 * q) with (y + (4 * q) * 100) at 1 by lia.
  replace (y + 400 * q) with (y + q * 400) by lia.
  now rewrite !Z_mod_plus_full.
Qed.

Lemma days_before_year_period (y q : Z) :
  days_before_year (y + 400 * q) = days_before_year y + DI400Y * q.
Proof.
  unfold days_before_year, DI400Y. cbv zeta.
  replace ((y + 400 * q - 1) / 4) with ((y - 1) / 4 + 100 * q)
    by (rewrite <- Z.div_add by lia; f_equal; lia).
  replace ((y + 400 * q - 1) / 100) with ((y - 1) / 100 + 4 * q)
    by (rewrite <- Z.div_add by lia; f_equal; lia).
  replace ((y + 400 * q - 1) / 400) with ((y - 1) / 400 + q)
    by (rewrite <- Z.div_add by lia; f_equal; lia).
  lia.
Qed.

Lemma ymd2ord_period (y m d q : Z) :
  ymd2ord (y + 400 * q) m d = ymd2ord y m d + DI400Y * q.
Proof.
  unfold ymd2ord, days_before_month.
  rewrite days_before_year_period, is_leap_period. lia.
Qed.

Lemma days_in_month_period (y m q : Z) :
  days_in_month (y + 400 * q) m = days_in_month y m.
Proof. unfold days_in_month. now rewrite is_leap_period. Qed.

(** [ord2ymd] repeats every 400 years. *)
Lemma ord2ymd_period (q r : Z) :
  0 <= r < DI400Y ->
  ord2ymd (DI400Y * q + r + 1)
  = let '(y, m, d) := ord2ymd (r + 1) in (y + 400 * q, m, d).
Proof.
  intro Hr. unfold ord2ymd. cbv zeta.
  replace (DI400Y * q + r + 1 - 1) with (r + q * DI400Y) by lia.
  replace (r + 1 - 1) with r by lia.
  rewrite Z.div_add, Z_mod_plus_full by (unfold DI400Y; lia).
  rewrite (Z.div_small r DI400Y Hr), (Z.mod_small r DI400Y Hr).
  set (n100 := r / DI100Y). set (r1 := r mod DI100Y).
  set (n4 := r1 / DI4Y). set (r2 := r1 mod DI4Y).
  set (n1 := r2 / 365). set (n := r2 mod 365).
  destruct ((n1 =? 4) || (n100 =? 4)); [f_equal; f_equal; lia |].
  destruct (n <? _); f_equal; f_equal; lia.
Qed.

(** Every ordinal of the supported range is read as a date of the calendar
    with that ordinal, in the years 1 to 9999. *)
Lemma ord2ymd_correct (o : Z) :
  1 <= o <= MAX_ORDINAL ->
  let '(y, m, d) := ord2ymd o in
  ymd2ord y m d = o /\ o <= days_before_year (y + 1) /\
  1 <= y <= 9999 /\ 1 <= m <= 12 /\ 1 <= d <= days_in_month y m.
Proof.
  intro Ho. unfold MAX_ORDINAL in Ho.
  set (q := (o - 1) / DI400Y). set (r := (o - 1) mod DI400Y).
  assert (Hr : 0 <= r < DI400Y) by (apply Z.mod_pos_bound; reflexivity).
  assert (Ho' : o = DI400Y * q + r + 1).
  { unfold q, r. pose proof (Z.div_mod (o - 1) DI400Y). lia. }
  assert (Hq : 0 <= q <= 24).
  { unfold DI400Y in *. lia. }
  clearbody q r. subst o. rewrite (ord2ymd_period q r Hr).
  assert (Hday : check_day r = true).
  { apply (holds_from_sound check_day (Z.to_nat DI400Y) 0); [exact cycle_checked |].
    unfold DI400Y in *. lia. }
  unfold check_day in Hday.
  destruct (ord2ymd (r + 1)) as [[y m] d].
  repeat (apply andb_prop in Hday as [Hday ?]).
  rewrite ymd2ord_period, days_in_month_period.
  assert (Hord : ymd2ord y m d = r + 1) by lia.
  assert (Hy400 : 1 <= y <= 401) by lia.
  split; [lia |]. split.
  { replace (y + 400 * q + 1) with (y + 1 + 400 * q) by lia.
    rewrite days_before_year_period. lia. }
  split; [| split; lia].
  split; [lia |].
  (* year 10000 would start after the last supported day *)
  destruct (Z_le_gt_dec (y + 400 * q) 9999) as [Hle | Hgt]; [exact Hle | exfalso].
  assert (Hy : y = 400 \/ y = 401) by lia.
  assert (Hq24 : q = 24) by lia.
  assert (Hm : 0 <= days_before_month y m).
  { unfold days_before_month.
    assert (Hm12 : 1 <= m <= 12) by lia.
    assert (Hcases : m = 1 \/ m = 2 \/ m = 3 \/ m = 4 \/ m = 5 \/ m = 6 \/
                     m = 7 \/ m = 8 \/ m = 9 \/ m = 10 \/ m = 11 \/ m = 12) by lia.
    destruct ((2 <? m) && is_leap y);
      repeat (destruct Hcases as [-> | Hcases]; [vm_compute; discriminate |]);
      subst m; vm_compute; discriminate. }
  assert (Hdby : 145731 <= days_before_year y)
    by (destruct Hy as [-> | ->]; vm_compute; discriminate).
  unfold ymd2ord in Hord. unfold DI400Y in *. lia.
Qed.

Lemma year_length (y : Z) :
  days_before_year y + 365 <= days_before_year (y + 1).
Proof.
  unfold days_before_year. cbv zeta.
  replace (y + 1 - 1) with (y - 1 + 1) by lia.
  set (a := y - 1). Z.div_mod_to_equations. lia.
Qed.

Lemma days_before_year_mono (y y' : Z) :
  y <= y' -> days_before_year y <= days_before_year y'.
Proof.
  intro H. replace y' with (y + Z.of_nat (Z.to_nat (y' - y))) by lia.
  induction (Z.to_nat (y' - y)) as [| k IH]; [now rewrite Z.add_0_r |].
  rewrite Nat2Z.inj_succ.
  replace (y + Z.succ (Z.of_nat k)) with (y + Z.of_nat k + 1) by lia.
  pose proof (year_length (y + Z.of_nat k)). lia.
Qed.

(** [datetime.fromtimestamp] on the epoch seconds of the supported range:
    the reading it gives stands for those seconds. *)
Lemma utcfromseconds_correct (ts : Z) :
  0 <= ts < 253402300800 ->
  exists t, utcfromseconds ts = Ok t /\ seconds_of t = ts /\ wall_clock t.
Proof.
  intro Hts. unfold utcfromseconds. cbv zeta.
  set (o := EPOCH_ORDINAL + ts / 86400). set (s := ts mod 86400).
  assert (Hs : 0 <= s < 86400) by (apply Z.mod_pos_bound; lia).
  assert (Hdiv : ts = 86400 * (ts / 86400) + s) by (apply Z.div_mod; lia).
  assert (Ho : EPOCH_ORDINAL <= o <= MAX_ORDINAL).
  { unfold o, EPOCH_ORDINAL, MAX_ORDINAL.
    assert (0 <= ts / 86400 < 2932897)
      by (split; [apply Z.div_pos; lia | apply Z.div_lt_upper_bound; lia]).
    lia. }
  destruct (Z.ltb_spec o 1) as [Hlt | _]; [unfold EPOCH_ORDINAL in Ho; lia |].
  destruct (Z.ltb_spec MAX_ORDINAL o) as [Hgt | _]; [lia |]. cbn [orb].
  assert (Hdate := ord2ymd_correct o).
  destruct (ord2ymd o) as [[y m] d].
  destruct Hdate as (Hord & Hend & Hy & Hm & Hd);
    [unfold EPOCH_ORDINAL in Ho; lia |].
  eexists. split; [reflexivity |].
  unfold seconds_of, wall_clock. cbn [year month day hour minute second].
  rewrite Hord.
  assert (Hclock : s = (s / 3600) * 3600 + (s mod 3600 / 60) * 60 + s mod 60
                   /\ 0 <= s / 3600 < 24 /\ 0 <= s mod 3600 / 60 < 60
                   /\ 0 <= s mod 60 < 60)
    by (Z.div_mod_to_equations; lia).
  split; [unfold o in *; lia |].
  split; [| split; [lia | split; [lia | lia]]].
  split; [| lia].
  (* the year is not before 1970 *)
  destruct (Z_le_gt_dec 1970 y) as [Hge | Hlt]; [exact Hge | exfalso].
  assert (Hmono : days_before_year (y + 1) <= days_before_year 1970)
    by (apply days_before_year_mono; lia).
  change (days_before_year 1970) with 719162 in Hmono.
  unfold EPOCH_ORDINAL in Ho. lia.
Qed.

(** ** Rendering *)

Lemma length_append (a b : string) :
  String.length (a ++ b) = (String.length a + String.length b)%nat.
Proof. induction a as [| c a IH]; cbn; [reflexivity | now rewrite IH]. Qed.

Lemma append_assoc (a b c : string) : ((a ++ b) ++ c = a ++ (b ++ c))%string.
Proof. induction a as [| x a IH]; cbn; [reflexivity | now rewrite IH]. Qed.

Lemma length_strftime (t : datetime) : String.length (strftime t) = 19%nat.
Proof. reflexivity. Qed.

(** On four-digit and two-digit numbers the padded renderings are the
    decimal numerals. *)
Lemma pad4_decimal (n : Z) : 1000 <= n <= 9999 -> pad4 n = decimal n.
Proof.
  intro Hn. apply String.eqb_eq.
  apply (holds_from_sound (fun i => String.eqb (pad4 i) (decimal i))
           (Z.to_nat 9000) 1000);
    [vm_cast_no_check (eq_refl true) | lia].
Qed.

Lemma pad2_decimal (n : Z) :
  0 <= n <= 99 ->
  pad2 n = if n <? 10 then String "0" (decimal n) else decimal n.
Proof.
  intro Hn. apply String.eqb_eq.
  apply (holds_from_sound
           (fun i => String.eqb (pad2 i)
                       (if i <? 10 then String "0" (decimal i) else decimal i))
           (Z.to_nat 100) 0);
    [vm_cast_no_check (eq_refl true) | lia].
Qed.

Lemma decimal_read (n : Z) : 0 <= n -> read_decimal (decimal n) = Some n.
Proof.
  intro Hn. unfold read_decimal, decimal.
  rewrite NilZero.usu.
  - cbn [option_map]. rewrite DecimalN.Unsigned.of_to. f_equal. lia.
  - destruct (Z.to_N n) as [| p]; [discriminate |].
    apply DecimalPos.Unsigned.to_uint_nonnil.
Qed.

Lemma commas_short (s : string) (k : nat) :
  (String.length s <= k)%nat -> commas k s = s.
Proof.
  revert k. induction s as [| c s IH]; intros k Hk; [reflexivity |].
  destruct k as [| k]; cbn in Hk; [lia |].
  cbn. rewrite IH; [reflexivity | lia].
Qed.

Lemma commas_app (s : string) (j : nat) (t : string) :
  (j <= 3)%nat ->
  (String.length s mod 3 = j mod 3)%nat ->
  (s <> "" \/ j = 0%nat) ->
  (commas j (s ++ t) = commas j s ++ commas 0 t)%string.
Proof.
  revert j. induction s as [| c s IH]; intros j Hj Hmod Hne.
  - destruct Hne as [Hne | ->]; [congruence | reflexivity].
  - cbn [String.length] in Hmod. destruct j as [| j]; cbn [commas String.append].
    + f_equal. f_equal. apply IH.
      * lia.
      * zify. Z.div_mod_to_equations. lia.
      * left. intros ->. cbn in Hmod. discriminate.
    + f_equal. apply IH.
      * lia.
      * zify. Z.div_mod_to_equations. lia.
      * destruct s as [| c' s]; [right | left; discriminate].
        cbn [String.length] in Hmod. zify. Z.div_mod_to_equations. lia.
Qed.

(** The separators: a numeral of up to three digits has none, and three
    more digits on the right add one comma before them. *)
Lemma group3_small (s : string) :
  (String.length s <= 3)%nat -> group3 s = s.
Proof.
  intro H. unfold group3. apply commas_short.
  zify. Z.div_mod_to_equations. lia.
Qed.

Lemma group3_snoc3 (s : string) (a b c : ascii) :
  s <> "" ->
  (group3 (s ++ String a (String b (String c "")))
   = group3 s ++ "," ++ String a (String b (String c "")))%string.
Proof.
  intro Hne. unfold group3.
  assert (Hlen : (1 <= String.length s)%nat)
    by (destruct s; [congruence | cbn; lia]).
  rewrite length_append. cbn [String.length].
  replace ((String.length s + 3 - 1) mod 3)%nat
    with ((String.length s - 1) mod 3)%nat
    by (zify; Z.div_mod_to_equations; lia).
  apply commas_app.
  - zify. Z.div_mod_to_equations. lia.
  - zify. Z.div_mod_to_equations. lia.
  - now left.
Qed.

(** [round_half_even] is within one half of its argument and does not go
    below zero on a non-negative one. *)
Lemma round_half_even_nearest (q : Q) :
  2 * Z.abs (round_half_even q * Zpos (Qden q) - Qnum q) <= Zpos (Qden q).
Proof.
  destruct q as [a b]. unfold round_half_even. cbn [Qnum Qden].
  pose proof (Z.div_mod a (Zpos b)) as Hdiv.
  pose proof (Z.mod_pos_bound a (Zpos b)) as Hmod.
  set (f := a / Zpos b) in *. set (r := a mod Zpos b) in *.
  destruct (Z.compare_spec (2 * r) (Zpos b)); [destruct (Z.even f) | |]; nia.
Qed.

Lemma round_half_even_nonneg (q : Q) : 0 <= Qnum q -> 0 <= round_half_even q.
Proof.
  destruct q as [a b]. unfold round_half_even. cbn [Qnum Qden]. intro Ha.
  assert (0 <= a / Zpos b) by (apply Z.div_pos; lia).
  destruct (2 * (a mod Zpos b) ?= Zpos b); [destruct (Z.even _) | |]; lia.
Qed.

(** The shape of a formatted amount: an optional sign, the grouped whole
    part, a point and two digits of cents, the amount in cents being the
    nearest to the value. *)
Lemma format_2f_shape (x : Q) :
  exists units cents : Z,
    0 <= units /\ 0 <= cents < 100 /\
    units * 100 + cents = round_half_even (Qabs x * 100) /\
    format_2f x
    = ((if Qlt_le_dec x 0 then "-" else "")
       ++ group3 (decimal units) ++ "." ++ pad2 cents)%string.
Proof.
  set (n := round_half_even (Qabs x * 100)).
  assert (Hn : 0 <= n).
  { apply round_half_even_nonneg. destruct x as [a b]. cbn. lia. }
  exists (n / 100), (n mod 100).
  split; [apply Z.div_pos; lia |].
  split; [apply Z.mod_pos_bound; lia |].
  split; [pose proof (Z.div_mod n 100); lia | reflexivity].
Qed.

Lemma round_half_even_nearest_Q (q : Q) :
  (Qabs (inject_Z (round_half_even q) - q) <= 1 # 2)%Q.
Proof.
  pose proof (round_half_even_nearest q) as H.
  destruct q as [a b]. cbn [Qnum Qden] in H.
  unfold Qle, Qabs, Qminus, Qplus, Qopp, inject_Z. cbn [Qnum Qden].
  rewrite Pos.mul_1_l.
  replace (round_half_even (a # b) * Zpos b + - a * 1)
    with (round_half_even (a # b) * Zpos b - a) by lia.
  lia.
Qed.

Lemma format_2f_amount (x : Q) : usd_amount x (format_2f x).
Proof.
  destruct (format_2f_shape x) as (units & cents & Hu & Hc & Hn & Hs).
  exists units, cents. repeat split; try assumption; try lia.
  rewrite Hn. apply round_half_even_nearest_Q.
Qed.

(** ** The symbol *)

Lemma upper_ascii_idem (c : ascii) : upper_ascii (upper_ascii c) = upper_ascii c.
Proof. destruct c as [[] [] [] [] [] [] [] []]; reflexivity. Qed.

Lemma upper_idem (s : string) : upper (upper s) = upper s.
Proof.
  induction s as [| c s IH]; [reflexivity |].
  cbn [upper]. now rewrite upper_ascii_idem, IH.
Qed.

Lemma outcome_symbol_upper (cfg : Config) (f : Fn) (g : GetResult) (s : string) :
  outcome_of cfg f g = Ok (RetSymbol s) -> upper s = s.
Proof.
  destruct f; cbn.
  - destruct (session_get g) as [r |]; cbn [bind]; [| discriminate].
    destruct (status_code r =? 404); [discriminate |].
    destruct (raise_for_status r); cbn [bind]; [| discriminate].
    destruct (response_json r) as [doc |]; cbn [bind]; [| discriminate].
    destruct (getitem doc "symbol") as [v |]; cbn [bind]; [| discriminate].
    destruct v; cbn; try discriminate.
    intro H. injection H as <-. apply upper_idem.
  - destruct (session_get g) as [r |]; cbn [bind]; [| discriminate].
    destruct (raise_for_status r); cbn [bind]; [| discriminate].
    destruct (response_json r) as [doc |]; cbn [bind]; [| discriminate].
    destruct (getitem doc (coin cfg)) as [entry |]; cbn [bind]; [| discriminate].
    destruct (getitem entry "usd"); cbn [bind]; [| discriminate].
    destruct (getitem entry "last_updated_at"); cbn [bind]; [| discriminate].
    destruct (fromtimestamp _); cbn [bind]; discriminate.
Qed.

Lemma finish_inv (cfg : Config) (f : Fn) (n : Z) (g : GetResult) (st : State) :
  upper (coin_symbol st) = coin_symbol st ->
  reachable_inv cfg (finish f n (outcome_of cfg f g) st).
Proof.
  intro Hsym. unfold finish, retry_iter.
  destruct (outcome_of cfg f g) as [v | e] eqn:Hout.
  - unfold returned. destruct v as [s | price ts].
    + split; [| exact I]. cbn. now apply (outcome_symbol_upper cfg f g).
    + destruct (report _ _ _ _) as [[prices' line] |]; now split.
  - destruct (retry_if_exception_type e);
      [destruct (update_retry_info n e) |]; unfold raised;
      try (now split); destruct f; now split.
Qed.

Lemma step_inv (cfg : Config) (st : State) (i : Input) :
  reachable_inv cfg st -> reachable_inv cfg (step cfg st i).
Proof.
  intros [Hsym Hpc]. unfold step.
  destruct (pc st) as [f n | f n req k | f n k | | o] eqn:E.
  - destruct i as [| | g].
    + split; [exact Hsym | cbn; now rewrite E].
    + destruct (shutdown_requested st).
      * rewrite wrapped_shutdown. unfold finish, retry_iter, raised. cbn.
        destruct f; now split.
      * rewrite wrapped_call. now split.
    + split; [exact Hsym | now rewrite E].
  - destruct i as [| | g].
    + split; [exact Hsym | cbn; now rewrite E].
    + destruct Hpc as [_ ->]. now split.
    + split; [exact Hsym | now rewrite E].
  - destruct i as [| | g].
    + split; [exact Hsym | cbn; now rewrite E].
    + split; [exact Hsym | now rewrite E].
    + subst k. now apply finish_inv.
  - destruct i as [| | g].
    + split; [exact Hsym | cbn; now rewrite E].
    + destruct (shutdown_requested st); now split.
    + split; [exact Hsym | now rewrite E].
  - split; [exact Hsym | now rewrite E].
Qed.

Lemma run_inv (cfg : Config) (inputs : list Input) (st : State) :
  reachable_inv cfg st -> reachable_inv cfg (run cfg st inputs).
Proof.
  revert st. induction inputs as [| i inputs IH]; intros st Hinv; [exact Hinv |].
  rewrite run_cons. apply IH. now apply step_inv.
Qed.

Lemma start_inv (cfg : Config) : reachable_inv cfg (start cfg).
Proof.
  unfold start. destruct (deque_new Q (max_price_storage cfg)); now split.
Qed.

(** ** The printed line *)

Lemma fromtimestamp_int (ts : Z) :
  fromtimestamp (JNum (inject_Z ts)) = utcfromseconds ts.
Proof.
  unfold fromtimestamp. cbn [as_number bind]. f_equal.
  unfold round_half_even, Qmult, inject_Z. cbn [Qnum Qden].
  change (Zpos (1 * 1)) with 1.
  rewrite Z.div_1_r, Z.mod_1_r. cbn [Z.mul Z.compare].
  apply Z.div_mul. lia.
Qed.

Lemma outcome_price (cfg : Config) (r : Response)
  (m entry : list (string * json)) (price ts_unix : json) (t : datetime) :
  ~ 400 <= status_code r < 600 ->
  body r = Some (JObj m) ->
  dict_lookup m (coin cfg) = Some (JObj entry) ->
  dict_lookup entry "usd" = Some price ->
  dict_lookup entry "last_updated_at" = Some ts_unix ->
  fromtimestamp ts_unix = Ok t ->
  outcome_of cfg FetchPrice (Replied r) = Ok (RetPrice price (strftime t)).
Proof.
  intros Hstatus Hbody Hcoin Husd Hts Ht.
  assert (Hok : raise_for_status r = Ok tt).
  { unfold raise_for_status.
    destruct (Z.leb_spec 400 (status_code r)); [| reflexivity].
    destruct (Z.ltb_spec (status_code r) 600); [lia | reflexivity]. }
  cbn. rewrite Hok. cbn [bind]. unfold response_json. rewrite Hbody.
  cbn [bind getitem]. rewrite Hcoin. cbn [bind getitem].
  rewrite Husd, Hts. cbn [bind]. rewrite Ht. reflexivity.
Qed.



(** * Further properties *)

(** ** The diagnostic hook *)

Lemma hook_on_cadence (k : Z) (e : exn) :
  k <> 0 -> k mod 5 = 0 ->
  update_retry_info k e
  = match e with
    | HTTPError r =>
        match body r with
        | None => Raise JSONDecodeError
        | Some doc =>
            match error_message r with
            | Some msg => Ok [EvLog ERROR msg]
            | None => Raise AttributeError
            end
        end
    | _ => Raise AttributeError
    end.
Proof.
  intros Hk Hmod. unfold update_retry_info. cbv zeta.
  destruct (Z.eqb_spec k 0) as [| _]; [contradiction |].
  rewrite Hmod. cbn [negb andb Z.eqb].
  destruct e as [r | | | | | | | | |]; try reflexivity.
  cbn [exn_response bind]. unfold response_json, error_message.
  destruct (body r) as [[| | | | | m] |]; try reflexivity.
  cbn [bind dict_get].
  destruct (dict_lookup m "status") as [[| | | | | m'] |]; reflexivity.
Qed.

(** X1: [update_retry_info] completes exactly when the attempt number is 0
    or no multiple of 5, or the exception is an [HTTPError] whose body is a
    JSON object with no ["status"] member or an object under it; otherwise
    the exception that escapes the hook is [AttributeError] (no response,
    or a document of another shape) or [JSONDecodeError] (a body that is
    not JSON). *)
Theorem X1_hook_completes_iff (k : Z) (e : exn) :
  ((exists logged, update_retry_info k e = Ok logged) <->
   (k = 0 \/ k mod 5 <> 0 \/
    exists r, e = HTTPError r /\ error_message r <> None)) /\
  (forall e', update_retry_info k e = Raise e' ->
              e' = AttributeError \/ e' = JSONDecodeError).
Proof.
  destruct (Z.eq_dec k 0) as [-> | Hk].
  { split; [split; [now left | intros _; now exists []] | discriminate]. }
  destruct (Z.eq_dec (k mod 5) 0) as [Hmod | Hmod].
  2: { rewrite (hook_off_cadence k e Hmod).
       split; [split; [now right; left | intros _; now exists []] | discriminate]. }
  rewrite (hook_on_cadence k e Hk Hmod). split.
  - split.
    + intros [logged H]. right. right.
      destruct e as [r | | | | | | | | |]; try discriminate.
      exists r. split; [reflexivity |].
      destruct (body r); [| discriminate].
      destruct (error_message r); [discriminate | discriminate H].
    + intros [Hz | [Hnz | (r & -> & Hmsg)]]; [contradiction | contradiction |].
      destruct (error_message r) as [msg |] eqn:E; [| congruence].
      unfold error_message in E.
      destruct (body r) as [doc |]; [now exists [EvLog ERROR msg] | discriminate E].
  - intros e' H.
    destruct e as [r | | | | | | | | |];
      try (injection H as <-; now left).
    destruct (body r); [| injection H as <-; now right].
    destruct (error_message r); [discriminate | injection H as <-; now left].
Qed.

(** X2: when attempt [k] of a decorated call, [k] a positive multiple of 5,
    fails with a transport failure, or with an error response whose body is
    not JSON, the exception of the hook replaces the failure and leaves the
    retrier: no sleep, no further attempt.  Under [fetch_price] the poll
    loop logs it and stops; under [get_coin_symbol] it leaves [main]
    uncaught. *)
Theorem X2_fifth_failure_escapes (cfg : Config) (f : Fn) (k : Z) (st : State) :
  pc st = PcEnter f k ->
  shutdown_requested st = false ->
  1 <= k -> k mod 5 = 0 ->
  run cfg st (attempt_inputs Failed)
  = raised f AttributeError (emit [EvGet (request_of cfg f)] st) /\
  (forall r,
      400 <= status_code r < 600 ->
      (f = GetCoinSymbol -> status_code r <> 404) ->
      body r = None ->
      run cfg st (attempt_inputs (Replied r))
      = raised f JSONDecodeError (emit [EvGet (request_of cfg f)] st)) /\
  (forall e, exists o, pc (raised f e (emit [EvGet (request_of cfg f)] st)) = PcExit o).
Proof.
  intros Hpc Hflag Hk Hmod.
  assert (Hk0 : k <> 0) by lia.
  split; [| split].
  - rewrite (attempt_run cfg f k Failed st Hpc Hflag), outcome_failed.
    unfold finish, retry_iter. cbn [retry_if_exception_type].
    now rewrite (hook_on_cadence k ConnectionError Hk0 Hmod).
  - intros r Hstatus H404 Hbody.
    rewrite (attempt_run cfg f k (Replied r) st Hpc Hflag).
    rewrite (outcome_http_error cfg f r Hstatus H404).
    unfold finish, retry_iter. cbn [retry_if_exception_type].
    now rewrite (hook_on_cadence k (HTTPError r) Hk0 Hmod), Hbody.
  - intro e. unfold raised. destruct f; fields; eauto.
Qed.

Lemma X2_fifth_failure_escapes_witness :
  let cfg := mkConfig "bitcoin" 10 in
  let st := run cfg (start cfg)
              (attempt_inputs symbol_reply ++ [Go]
               ++ failure_inputs (repeat (error_response 500 "x") 4)) in
  pc st = PcEnter FetchPrice 5 /\
  pc (run cfg st (attempt_inputs Failed)) = PcExit Returned /\
  count_gets (trace (run cfg st (attempt_inputs Failed))) = 6%nat.
Proof.
  intros cfg st.
  assert (Hpc : pc st = PcEnter FetchPrice 5) by reflexivity.
  assert (Hk : 1 <= 5) by lia.
  destruct (X2_fifth_failure_escapes cfg FetchPrice 5 st Hpc eq_refl Hk eq_refl)
    as (Hrun & _ & _).
  split; [exact Hpc |]. rewrite Hrun. split; reflexivity.
Defined.

(** ** Which failures are retried *)

Lemma raise_for_status_spec (r : Response) :
  (400 <= status_code r < 600 /\ raise_for_status r = Raise (HTTPError r)) \/
  (~ 400 <= status_code r < 600 /\ raise_for_status r = Ok tt).
Proof.
  unfold raise_for_status.
  destruct (Z.leb_spec 400 (status_code r));
    destruct (Z.ltb_spec (status_code r) 600); cbn [andb];
    [left | right | right | right]; split; (lia || reflexivity).
Qed.

Lemma fromtimestamp_raises (v : json) (e : exn) :
  fromtimestamp v = Raise e -> e = TypeError \/ e = ValueError.
Proof.
  unfold fromtimestamp.
  destruct v; cbn [as_number bind];
    try (intro H; injection H as <-; now left).
  all: unfold utcfromseconds; cbv zeta;
    destruct (_ || _); [intro H; injection H as <-; now right |];
    destruct (ord2ymd _) as [[? ?] ?]; discriminate.
Qed.


(** X4: an attempt of [get_coin_symbol] fails with an exception the retrier
    retries exactly when the transport failed, or the status is not 404 and
    either is 4xx or 5xx or comes with a body that is not JSON; a 404 is
    never retried, whatever its body; every other failure is a [KeyError],
    a [TypeError] or an [AttributeError]. *)
Theorem X4_get_coin_symbol_retried_iff (cfg : Config) (g : GetResult) :
  ((exists e, outcome_of cfg GetCoinSymbol g = Raise e /\
              retry_if_exception_type e = true) <->
   (g = Failed \/
    exists r, g = Replied r /\ status_code r <> 404 /\
              (400 <= status_code r < 600 \/ body r = None))) /\
  (forall e, outcome_of cfg GetCoinSymbol g = Raise e ->
             retry_if_exception_type e = false ->
             (exists r, g = Replied r /\ status_code r = 404 /\
                        e = Exception_ (text r)) \/
             e = KeyError "symbol" \/ e = TypeError \/ e = AttributeError).
Proof.
  destruct g as [r |].
  2: { rewrite outcome_failed. split.
       - split; [now left | intros _; now exists ConnectionError].
       - intros e H. injection H as <-. discriminate. }
  cbn [outcome_of wrapped get_coin_symbol map_attempt session_get bind].
  destruct (Z.eqb_spec (status_code r) 404) as [H404 | H404]; cbn [bind].
  { split.
    - split; [intros (e & H & Hretry); injection H as <-; discriminate Hretry |].
      intros [H | (r' & H & Hne & _)]; [discriminate H |].
      injection H as <-. contradiction.
    - intros e H _. injection H as <-. left. now exists r. }
  destruct (raise_for_status_spec r) as [[Hs ->] | [Hs ->]]; cbn [bind].
  { split.
    - split; [intros _; right; exists r; auto | intros _; now exists (HTTPError r)].
    - intros e H. injection H as <-. discriminate. }
  unfold response_json. destruct (body r) as [doc |] eqn:Hbody; cbn [bind].
  2: { split.
       - split; [intros _; right; exists r; auto | intros _; now exists JSONDecodeError].
       - intros e H. injection H as <-. discriminate. }
  assert (Hrhs : ~ (Replied r = Failed \/
                    exists r', Replied r = Replied r' /\ status_code r' <> 404 /\
                               (400 <= status_code r' < 600 \/ body r' = None))).
  { intros [H | (r' & H & _ & [Hs' | Hb])]; [discriminate H | |];
      injection H as <-; [contradiction | congruence]. }
  unfold getitem.
  destruct doc as [| | | | | m]; cbn [bind];
    try (split; [split; [intros (e & H & Hr); injection H as <-; discriminate Hr
                        | intro H; now elim Hrhs]
                | intros e H _; injection H as <-; tauto]).
  destruct (dict_lookup m "symbol") as [v |]; cbn [bind].
  2: { split; [split; [intros (e & H & Hr); injection H as <-; discriminate Hr
                      | intro H; now elim Hrhs]
              | intros e H _; injection H as <-; tauto]. }
  unfold str_upper.
  destruct v; cbn [bind];
    (split; [split; [intros (e & H & Hr); try discriminate H;
                     injection H as <-; discriminate Hr
                    | intro H; now elim Hrhs]
            | intros e H _; try discriminate H; injection H as <-; tauto]).
Qed.

(** ** The symbol *)

Lemma upper_ascii_not_lower (c : ascii) : is_lower (upper_ascii c) = false.
Proof. destruct c as [[] [] [] [] [] [] [] []]; reflexivity. Qed.

Lemma upper_no_lower (s : string) : has_lower (upper s) = false.
Proof.
  induction s as [| c s IH]; [reflexivity |].
  cbn [upper has_lower]. now rewrite upper_ascii_not_lower, IH.
Qed.

Lemma upper_length (s : string) : String.length (upper s) = String.length s.
Proof. induction s as [| c s IH]; cbn; [reflexivity | now rewrite IH]. Qed.

Lemma upper_fixes_non_lower (s : string) : has_lower s = false -> upper s = s.
Proof.
  induction s as [| c s IH]; [reflexivity |].
  cbn [has_lower upper]. intro H. apply orb_false_elim in H as [Hc Hs].
  rewrite (IH Hs). f_equal. unfold upper_ascii. unfold is_lower in Hc.
  cbv zeta in *. now rewrite Hc.
Qed.



(** ** What an attempt's outcome adds to the trace *)

Lemma wait_exponential_ge (k : Z) : 1 <= wait_exponential 1 1 900 k.
Proof. unfold wait_exponential. lia. Qed.

Lemma finish_trace (f : Fn) (n : Z) (r : Result Ret) (st : State) :
  exists evs, trace (finish f n r st) = trace st ++ evs /\
              Forall quiet_event evs.
Proof.
  assert (Hlog : forall lvl msg, quiet_event (EvLog lvl msg))
    by (intros; split; [exact I | discriminate]).
  assert (Hraised : forall e, exists evs,
             trace (raised f e st) = trace st ++ evs /\ Forall quiet_event evs).
  { intro e. unfold raised. destruct f; fields.
    - exists []. now rewrite app_nil_r.
    - eexists. split; [reflexivity |]. repeat constructor; discriminate. }
  unfold finish, retry_iter. destruct r as [v | e].
  - unfold returned. destruct v as [s | price ts].
    + exists []. fields. now rewrite app_nil_r.
    + destruct (report _ _ _ _) as [[prices' line] | e]; fields.
      * eexists. split; [reflexivity |].
        repeat constructor; (discriminate || cbn; lia).
      * exists []. now rewrite app_nil_r.
  - destruct (retry_if_exception_type e); [| apply Hraised].
    destruct (update_retry_info n e) as [logged | e'] eqn:Hhook; [| apply Hraised].
    fields. eexists. split; [reflexivity |].
    apply Forall_app. split.
    + destruct (update_retry_info_logged n e logged Hhook) as [-> | [msg ->]];
        repeat constructor; discriminate.
    + repeat constructor; try discriminate; cbn.
      * apply wait_exponential_ge.
      * apply wait_exponential_le.
Qed.

Lemma outcome_fetch_ret (cfg : Config) (g : GetResult) (v : Ret) :
  outcome_of cfg FetchPrice g = Ok v -> exists price ts, v = RetPrice price ts.
Proof.
  cbn [outcome_of wrapped fetch_price map_attempt].
  match goal with
  | |- context [bind ?c _] => destruct c as [[price ts] |]
  end; cbn [bind]; [| discriminate].
  intro H. injection H as <-. eauto.
Qed.

Lemma outcome_symbol_ret (cfg : Config) (g : GetResult) (v : Ret) :
  outcome_of cfg GetCoinSymbol g = Ok v -> exists s, v = RetSymbol s.
Proof.
  cbn [outcome_of wrapped get_coin_symbol map_attempt].
  match goal with
  | |- context [bind ?c _] => destruct c as [s |]
  end; cbn [bind]; [| discriminate].
  intro H. injection H as <-. eauto.
Qed.

(** ** The symbol is resolved once *)

Lemma step_resolved (cfg : Config) (st : State) (i : Input) :
  reachable_inv cfg st -> resolved st ->
  resolved (step cfg st i) /\
  coin_symbol (step cfg st i) = coin_symbol st /\
  exists evs, trace (step cfg st i) = trace st ++ evs /\
              forall req, In (EvGet req) evs -> req = request_of cfg FetchPrice.
Proof.
  intros [_ Hk] Hres. unfold resolved in *.
  assert (Hsame : exists evs : list Event,
             trace st = trace st ++ evs /\
             forall req, In (EvGet req) evs -> req = request_of cfg FetchPrice).
  { exists []. rewrite app_nil_r. split; [reflexivity | intros req []]. }
  assert (Hsig : exists evs : list Event,
             trace (signal_handler st) = trace st ++ evs /\
             forall req, In (EvGet req) evs -> req = request_of cfg FetchPrice).
  { eexists. split; [reflexivity |]. intros req [H | []]. discriminate H. }
  assert (Hfinish : forall n r,
             (forall s, r <> Ok (RetSymbol s)) ->
             resolved (finish FetchPrice n r st) /\
             coin_symbol (finish FetchPrice n r st) = coin_symbol st /\
             exists evs, trace (finish FetchPrice n r st) = trace st ++ evs /\
                         forall req, In (EvGet req) evs ->
                                     req = request_of cfg FetchPrice).
  { intros n r Hr.
    assert (Htrace : exists evs,
               trace (finish FetchPrice n r st) = trace st ++ evs /\
               forall req, In (EvGet req) evs -> req = request_of cfg FetchPrice).
    { destruct (finish_trace FetchPrice n r st) as (evs & Hevs & Hquiet).
      exists evs. split; [exact Hevs |]. intros req Hin.
      rewrite Forall_forall in Hquiet. destruct (Hquiet _ Hin) as [_ Hne].
      now elim (Hne req). }
    split; [| split; [| exact Htrace]]; clear Htrace;
      unfold resolved, finish, retry_iter; destruct r as [v | e].
    - unfold returned. destruct v as [s | price ts]; [now elim (Hr s) |].
      now destruct (report _ _ _ _) as [[? ?] |].
    - destruct (retry_if_exception_type e);
        [destruct (update_retry_info n e) |]; exact I.
    - unfold returned. destruct v as [s | price ts]; [now elim (Hr s) |].
      now destruct (report _ _ _ _) as [[? ?] |].
    - destruct (retry_if_exception_type e);
        [destruct (update_retry_info n e) |]; reflexivity. }
  unfold step.
  destruct (pc st) as [f n | f n req k | f n k | | o] eqn:E.
  - destruct f; [contradiction |].
    destruct i as [| | g].
    + fields. rewrite E. auto.
    + destruct (shutdown_requested st).
      * rewrite wrapped_shutdown. apply Hfinish. discriminate.
      * rewrite wrapped_call. unfold resolved. fields. auto.
    + unfold resolved. rewrite E. auto.
  - destruct f; [contradiction |].
    destruct i as [| | g].
    + fields. rewrite E. auto.
    + unfold resolved. fields. split; [exact I |]. split; [reflexivity |].
      eexists. split; [reflexivity |]. intros req' [H | []].
      injection H as <-. apply Hk.
    + unfold resolved. rewrite E. auto.
  - destruct f; [contradiction |].
    destruct i as [| | g].
    + fields. rewrite E. auto.
    + unfold resolved. rewrite E. auto.
    + subst k. apply Hfinish. intros s H.
      destruct (outcome_fetch_ret cfg g _ H) as (p & t & Hv). discriminate Hv.
  - destruct i as [| | g].
    + fields. rewrite E. auto.
    + unfold resolved. destruct (shutdown_requested st); fields; auto.
    + unfold resolved. rewrite E. auto.
  - unfold resolved. rewrite E. auto.
Qed.

(** X6: the symbol is resolved once.  From any point of a run where the
    symbol is resolved, whatever follows leaves [coin_symbol] as it is,
    never goes back to resolving, and issues no request other than the
    price request. *)
Theorem X6_symbol_resolved_once (cfg : Config) (history inputs : list Input) :
  let st := run cfg (start cfg) history in
  resolved st ->
  let st' := run cfg st inputs in
  resolved st' /\
  coin_symbol st' = coin_symbol st /\
  exists evs, trace st' = trace st ++ evs /\
              forall req, In (EvGet req) evs -> req = request_of cfg FetchPrice.
Proof.
  intro st.
  assert (Hinv : reachable_inv cfg st)
    by apply (run_inv cfg history (start cfg) (start_inv cfg)).
  clearbody st. revert st Hinv.
  induction inputs as [| i inputs IH]; intros st Hinv Hres st'.
  - split; [exact Hres |]. split; [reflexivity |].
    exists []. cbn. rewrite app_nil_r. split; [reflexivity | intros req []].
  - unfold st'. rewrite run_cons.
    destruct (step_resolved cfg st i Hinv Hres) as (Hres1 & Hsym1 & evs1 & Ht1 & Hg1).
    destruct (IH (step cfg st i) (step_inv cfg st i Hinv) Hres1)
      as (Hres2 & Hsym2 & evs2 & Ht2 & Hg2).
    split; [exact Hres2 |]. split; [congruence |].
    exists (evs1 ++ evs2). split.
    + rewrite Ht2, Ht1. now rewrite app_assoc.
    + intros req Hin. apply in_app_or in Hin as [Hin | Hin]; auto.
Qed.

Lemma X6_symbol_resolved_once_witness :
  let cfg := mkConfig "bitcoin" 3 in
  let st := run cfg (start cfg) (attempt_inputs symbol_reply) in
  resolved st /\
  coin_symbol
    (run cfg st (cycle_inputs (price_reply "bitcoin" 1 0)
                 ++ cycle_inputs symbol_reply ++ [Sigint; Go]))
  = "BTC".
Proof.
  intros cfg st.
  assert (Hres : resolved st) by exact I.
  destruct (X6_symbol_resolved_once cfg (attempt_inputs symbol_reply)
              (cycle_inputs (price_reply "bitcoin" 1 0)
               ++ cycle_inputs symbol_reply ++ [Sigint; Go]) Hres)
    as (_ & Hsym & _).
  split; [exact Hres |]. subst st. rewrite Hsym. reflexivity.
Defined.

(** ** The window and the printed lines *)

Lemma count_prints_app (a b : list Event) :
  count_prints (a ++ b) = (count_prints a + count_prints b)%nat.
Proof. unfold count_prints. now rewrite filter_app, length_app. Qed.

Lemma report_ok (symbol : string) (d d' : deque Q) (price : json)
  (ts line : string) :
  report symbol d price ts = Ok (d', line) ->
  exists p, as_number price = Ok p /\ d' = append d p.
Proof.
  unfold report. destruct (as_number price) as [p |]; cbn [bind]; [| discriminate].
  destruct (sma (append d p)); cbn [bind]; [| discriminate].
  intro H. injection H as <- _. eauto.
Qed.

Lemma len_append_min (d : deque Q) (x : Q) :
  len d <= maxlen d -> len (append d x) = Z.min (len d + 1) (maxlen d).
Proof.
  intro Hinv. unfold len in *. rewrite (items_append d x Hinv), length_lastn.
  rewrite length_app. cbn [length]. lia.
Qed.

Lemma finish_window (cfg : Config) (f : Fn) (n : Z) (r : Result Ret) (st : State) :
  window_inv cfg st -> window_inv cfg (finish f n r st).
Proof.
  intros [Hmax Hlen]. unfold window_inv, finish, retry_iter.
  assert (Hraised : forall e,
             maxlen (prices (raised f e st)) = max_price_storage cfg /\
             len (prices (raised f e st))
             = Z.min (Z.of_nat (count_prints (trace (raised f e st))))
                 (max_price_storage cfg)).
  { intro e. unfold raised. destruct f; fields; [now split |].
    rewrite count_prints_app. cbn. rewrite Nat.add_0_r. now split. }
  destruct r as [v | e].
  - unfold returned. destruct v as [s | price ts]; [now split |].
    destruct (report _ _ _ _) as [[prices' line] | e] eqn:Hrep; fields;
      [| now split].
    destruct (report_ok _ _ _ _ _ _ Hrep) as (p & _ & ->).
    rewrite maxlen_append, count_prints_app. split; [exact Hmax |].
    rewrite len_append_min by lia. cbn. lia.
  - destruct (retry_if_exception_type e); [| apply Hraised].
    destruct (update_retry_info n e) as [logged |] eqn:Hhook; [| apply Hraised].
    fields. rewrite count_prints_app. split; [exact Hmax |].
    destruct (update_retry_info_logged n e logged Hhook) as [-> | [msg ->]];
      cbn; rewrite Nat.add_0_r; exact Hlen.
Qed.

Lemma step_window (cfg : Config) (st : State) (i : Input) :
  window_inv cfg st -> window_inv cfg (step cfg st i).
Proof.
  intros Hinv. pose proof Hinv as [Hmax Hlen]. unfold step.
  assert (Hsig : window_inv cfg (signal_handler st)).
  { unfold window_inv. fields. rewrite count_prints_app. cbn.
    rewrite Nat.add_0_r. now split. }
  destruct (pc st) as [f n | f n req k | f n k | | o]; destruct i as [| | g];
    try exact Hinv; try exact Hsig.
  - destruct (wrapped cfg f (shutdown_requested st));
      [now apply finish_window | exact Hinv].
  - unfold window_inv. fields. rewrite count_prints_app. cbn.
    rewrite Nat.add_0_r. now split.
  - now apply finish_window.
  - destruct (shutdown_requested st); exact Hinv.
Qed.



(** ** Successful cycles compose *)

Lemma price_reply_outcome (cfg : Config) (p : Q) (ts : Z) :
  0 <= ts < 253402300800 ->
  exists t, utcfromseconds ts = Ok t /\
            outcome_of cfg FetchPrice (price_reply (coin cfg) p ts)
            = Ok (RetPrice (JNum p) (strftime t)).
Proof.
  intro Hts. destruct (utcfromseconds_correct ts Hts) as (t & Ht & _).
  exists t. split; [exact Ht |].
  apply (outcome_price cfg _
           [(coin cfg, JObj [("usd", JNum p);
                              ("last_updated_at", JNum (inject_Z ts))])]
           [("usd", JNum p); ("last_updated_at", JNum (inject_Z ts))]
           (JNum p) (JNum (inject_Z ts)) t).
  - cbn. lia.
  - reflexivity.
  - cbn [dict_lookup]. now rewrite String.eqb_refl.
  - reflexivity.
  - reflexivity.
  - now rewrite fromtimestamp_int.
Qed.

Lemma good_cycle (cfg : Config) (st : State) (p : Q) (ts : Z) :
  pc st = PcLoop -> shutdown_requested st = false ->
  0 <= ts < 253402300800 ->
  exists line,
    run cfg st (cycle_inputs (price_reply (coin cfg) p ts))
    = mkState PcLoop false (append (prices st) p) (coin_symbol st)
        (trace st ++ [EvGet (request_of cfg FetchPrice); EvPrint line; EvSleep 1]).
Proof.
  intros Hpc Hflag Hts.
  destruct (price_reply_outcome cfg p ts Hts) as (t & _ & Hout).
  unfold cycle_inputs. rewrite run_cons.
  assert (Hstep : step cfg st Go = goto (PcEnter FetchPrice 1) st).
  { unfold step. now rewrite Hpc, Hflag. }
  rewrite Hstep.
  rewrite (attempt_run cfg FetchPrice 1 _ (goto (PcEnter FetchPrice 1) st)
             eq_refl Hflag), Hout.
  unfold finish, retry_iter, returned, report. cbn [as_number bind]. fields.
  rewrite sma_total. cbn [bind]. rewrite Hflag. state_eq.
  eexists. reflexivity.
Qed.



(** ** Sleeps *)

Lemma step_trace (cfg : Config) (st : State) (i : Input) :
  exists evs, trace (step cfg st i) = trace st ++ evs /\
              Forall sleep_in_bounds evs.
Proof.
  assert (Hnone : exists evs, trace st = trace st ++ evs /\
                              Forall sleep_in_bounds evs)
    by (exists []; now rewrite app_nil_r).
  assert (Hsig : exists evs, trace (signal_handler st) = trace st ++ evs /\
                             Forall sleep_in_bounds evs)
    by (eexists; split; [reflexivity | repeat constructor]).
  assert (Hfinish : forall f n r,
             exists evs, trace (finish f n r st) = trace st ++ evs /\
                         Forall sleep_in_bounds evs).
  { intros f n r. destruct (finish_trace f n r st) as (evs & Hevs & Hquiet).
    exists evs. split; [exact Hevs |].
    eapply Forall_impl; [| exact Hquiet]. now intros ev [H _]. }
  unfold step.
  destruct (pc st) as [f n | f n req k | f n k | | o]; destruct i as [| | g];
    try exact Hnone; try exact Hsig.
  - destruct (wrapped cfg f (shutdown_requested st)); [apply Hfinish | exact Hnone].
  - fields. eexists. split; [reflexivity | repeat constructor].
  - apply Hfinish.
  - destruct (shutdown_requested st); exact Hnone.
Qed.

(** X9: no run ever sleeps for less than one second or for more than 900:
    every sleep in the trace, backoff or the pause between cycles, lies
    within these bounds. *)
Theorem X9_sleeps_in_bounds (cfg : Config) (inputs : list Input) :
  forall secs, In (EvSleep secs) (trace (run cfg (start cfg) inputs)) ->
               1 <= secs <= 900.
Proof.
  assert (Hstart : Forall sleep_in_bounds (trace (start cfg))).
  { unfold start. destruct (deque_new Q (max_price_storage cfg));
      repeat constructor. }
  assert (Hall : Forall sleep_in_bounds (trace (run cfg (start cfg) inputs))).
  { generalize (start cfg) Hstart. clear Hstart.
    induction inputs as [| i inputs IH]; intros st Hst; [exact Hst |].
    rewrite run_cons. apply IH.
    destruct (step_trace cfg st i) as (evs & -> & Hevs).
    apply Forall_app. now split. }
  intros secs Hin. rewrite Forall_forall in Hall. exact (Hall _ Hin).
Qed.

Lemma X9_sleeps_in_bounds_witness :
  let cfg := mkConfig "bitcoin" 10 in
  let inputs := attempt_inputs symbol_reply
                ++ [Go] ++ failure_inputs (repeat (error_response 500 "x") 12) in
  In (EvSleep 900) (trace (run cfg (start cfg) inputs)) /\ 1 <= 900 <= 900.
Proof.
  intros cfg inputs.
  assert (Hin : In (EvSleep 900) (trace (run cfg (start cfg) inputs))).
  { vm_compute. repeat (first [left; reflexivity | right]). }
  split; [exact Hin |].
  exact (X9_sleeps_in_bounds cfg inputs 900 Hin).
Defined.

(** ** Pacing of the requests *)

Lemma pending_gets_app (a b : list Event) :
  pending_gets (a ++ b)
  = fold_left (fun n ev => match ev with
                           | EvSleep _ => O
                           | EvGet _ => S n
                           | _ => n
                           end) b (pending_gets a).
Proof. unfold pending_gets. apply fold_left_app. Qed.

Lemma pending_gets_log (tr : list Event) (lvl : Level) (msg : LogMsg) :
  pending_gets (tr ++ [EvLog lvl msg]) = pending_gets tr.
Proof. now rewrite pending_gets_app. Qed.

Lemma pending_gets_backoff (tr logged : list Event) (n : Z) (e : exn) (secs : Z) :
  update_retry_info n e = Ok logged ->
  pending_gets (tr ++ logged ++ [EvSleep secs]) = 0%nat.
Proof.
  intro H. rewrite app_assoc, pending_gets_app. reflexivity.
Qed.

Lemma finish_paced (cfg : Config) (f : Fn) (n : Z) (g : GetResult) (st : State) :
  1 <= n ->
  (1 <= pending_gets (trace st) <= 2)%nat ->
  (2 <= n \/ f = GetCoinSymbol -> pending_gets (trace st) = 1%nat) ->
  paced (finish f n (outcome_of cfg f g) st).
Proof.
  intros Hn Hpending Hone. unfold finish, retry_iter.
  assert (Hraised : forall e, paced (raised f e st)).
  { intro e. unfold raised, paced. destruct f; fields; [lia |].
    rewrite pending_gets_log. lia. }
  destruct (outcome_of cfg f g) as [v | e] eqn:Hout.
  - unfold returned. destruct v as [s | price ts].
    + assert (Hf : f = GetCoinSymbol).
      { destruct f; [reflexivity |].
        destruct (outcome_fetch_ret cfg g _ Hout) as (p & t & H). discriminate H. }
      unfold paced. fields. rewrite Hone by now right. lia.
    + destruct (report _ _ _ _) as [[prices' line] |]; unfold paced; fields.
      * rewrite pending_gets_app. cbn. lia.
      * lia.
  - destruct (retry_if_exception_type e); [| apply Hraised].
    destruct (update_retry_info n e) as [logged |] eqn:Hhook; [| apply Hraised].
    unfold paced. fields.
    rewrite (pending_gets_backoff (trace st) logged n e _ Hhook).
    split; [lia |]. split; [lia | reflexivity].
Qed.

Lemma step_paced (cfg : Config) (st : State) (i : Input) :
  reachable_inv cfg st -> paced st -> paced (step cfg st i).
Proof.
  intros [_ Hk] Hpaced. unfold step.
  destruct (pc st) as [f n | f n req k | f n k | | o] eqn:E.
  - destruct i as [| | g].
    + unfold paced in *. fields. rewrite E in *. now rewrite pending_gets_log.
    + destruct (shutdown_requested st).
      * rewrite wrapped_shutdown. unfold finish, retry_iter.
        cbn [retry_if_exception_type]. unfold raised, paced in *.
        rewrite E in Hpaced. destruct f; fields; [lia |].
        rewrite pending_gets_log. lia.
      * rewrite wrapped_call. unfold paced in *. fields. now rewrite E in Hpaced.
    + exact Hpaced.
  - destruct i as [| | g].
    + unfold paced in *. fields. rewrite E in *. now rewrite pending_gets_log.
    + unfold paced in *. rewrite E in Hpaced. fields.
      rewrite pending_gets_app. cbn.
      destruct Hpaced as (Hn & Hle & Hzero).
      split; [exact Hn |]. split; [lia |]. intro H. rewrite (Hzero H). reflexivity.
    + exact Hpaced.
  - destruct i as [| | g].
    + unfold paced in *. fields. rewrite E in *. now rewrite pending_gets_log.
    + exact Hpaced.
    + subst k. unfold paced in Hpaced. rewrite E in Hpaced.
      destruct Hpaced as (Hn & Hle & Hone). now apply finish_paced.
  - destruct i as [| | g].
    + unfold paced in *. fields. rewrite E in *. now rewrite pending_gets_log.
    + unfold paced in *. rewrite E in Hpaced.
      destruct (shutdown_requested st); fields; [lia |].
      split; [lia |]. split; [exact Hpaced |].
      intros [H | H]; [lia | discriminate H].
    + exact Hpaced.
  - exact Hpaced.
Qed.

(** X10: requests are paced by sleeps.  At every point of every run at
    most two requests have been issued since the last sleep (the symbol
    lookup and the first price request); when a request is about to be
    issued, at most one has been issued since the last sleep, and none if
    the attempt is a retry or a symbol lookup. *)
Theorem X10_requests_are_paced (cfg : Config) (inputs : list Input) :
  let st := run cfg (start cfg) inputs in
  (pending_gets (trace st) <= 2)%nat /\
  (forall f n req k,
      pc st = PcRequest f n req k ->
      (pending_gets (trace st) <= 1)%nat /\
      (n <> 1 \/ f = GetCoinSymbol -> pending_gets (trace st) = 0%nat)).
Proof.
  intro st.
  assert (Hstart : paced (start cfg)).
  { unfold paced, start. destruct (deque_new Q (max_price_storage cfg)); cbn.
    - split; [lia |]. split; [lia | reflexivity].
    - lia. }
  assert (Hpaced : paced st).
  { unfold st. generalize (start cfg) (start_inv cfg) Hstart. clear st Hstart.
    induction inputs as [| i inputs IH]; intros st Hinv Hst; [exact Hst |].
    rewrite run_cons. apply IH; [now apply step_inv | now apply step_paced]. }
  unfold paced in Hpaced. split.
  - destruct (pc st); lia.
  - intros f n req k Hpc. rewrite Hpc in Hpaced.
    destruct Hpaced as (Hn & Hle & Hzero).
    split; [exact Hle |]. intros [H | H]; apply Hzero; [left; lia | now right].
Qed.

(** ** Stopping *)

(** X11: once the flag is set the process is over as soon as the request
    in flight, if any, has been answered: from any state with the flag set,
    an action, a reply and one more action end it, whatever the reply. *)
Theorem X11_shutdown_stops_promptly (cfg : Config) (st : State) (g : GetResult) :
  shutdown_requested st = true ->
  exists o, pc (run cfg st [Go; Reply g; Go]) = PcExit o.
Proof.
  intro Hflag.
  assert (Hexit : forall s o inputs, pc s = PcExit o ->
                                     exists o', pc (run cfg s inputs) = PcExit o').
  { intros s o inputs H. rewrite (run_exit cfg inputs s o H). eauto. }
  assert (Hgo : forall s, shutdown_requested s = true ->
                          (exists f n, pc s = PcEnter f n) \/ pc s = PcLoop
                          \/ (exists o, pc s = PcExit o) ->
                          exists o, pc (step cfg s Go) = PcExit o).
  { intros s Hs [(f & n & H) | [H | (o & H)]]; unfold step; rewrite H.
    - rewrite Hs, wrapped_shutdown. unfold finish, retry_iter.
      cbn [retry_if_exception_type]. unfold raised. destruct f; fields; eauto.
    - rewrite Hs. fields. eauto.
    - eauto. }
  assert (Hreply : forall s f n k,
             shutdown_requested s = true ->
             exists o, pc (step cfg (finish f n (k g) s) Go) = PcExit o).
  { intros s f n k Hs. apply Hgo.
    - now rewrite (proj1 (finish_frame f n (k g) s)).
    - unfold finish, retry_iter. destruct (k g) as [v | e].
      + unfold returned. destruct v as [sym | price ts]; [now right; left |].
        destruct (report _ _ _ _) as [[? ?] |]; fields; eauto.
      + unfold raised.
        destruct (retry_if_exception_type e);
          [destruct (update_retry_info n e) |]; try destruct f; fields; eauto. }
  destruct (pc st) as [f n | f n req k | f n k | | o] eqn:E.
  - rewrite run_cons.
    destruct (Hgo st Hflag) as [o Ho]; [eauto |]. now apply Hexit with (o := o).
  - cbn [run fold_left]. unfold step at 3. rewrite E.
    unfold step at 2. fields. apply Hreply. exact Hflag.
  - cbn [run fold_left]. unfold step at 3. rewrite E.
    unfold step at 2. rewrite E. now apply Hreply.
  - rewrite run_cons.
    destruct (Hgo st Hflag) as [o Ho]; [auto |]. now apply Hexit with (o := o).
  - now apply Hexit with (o := o).
Qed.

Lemma X11_shutdown_stops_promptly_witness :
  let cfg := mkConfig "bitcoin" 10 in
  let st := run cfg (start cfg)
              (attempt_inputs symbol_reply ++ [Go; Go; Go; Sigint]) in
  shutdown_requested st = true /\
  pc (run cfg st [Go; Reply (error_reply 503 "busy"); Go]) = PcExit Returned.
Proof.
  intros cfg st.
  assert (Hflag : shutdown_requested st = true) by reflexivity.
  destruct (X11_shutdown_stops_promptly cfg st (error_reply 503 "busy") Hflag)
    as [o Ho].
  split; [exact Hflag |]. rewrite Ho. f_equal.
  assert (H : pc (run cfg st [Go; Reply (error_reply 503 "busy"); Go])
              = PcExit Returned) by reflexivity.
  rewrite Ho in H. now injection H.
Defined.

(** ** Fields of the wrong kind *)



(** ** The average *)

Lemma sum_bounds (l : list Q) (lo hi : Q) :
  (forall x, In x l -> lo <= x <= hi)%Q ->
  (lo * inject_Z (Z.of_nat (length l)) <= fold_right Qplus 0 l
   /\ fold_right Qplus 0 l <= hi * inject_Z (Z.of_nat (length l)))%Q.
Proof.
  induction l as [| x l IH]; intro Hall.
  - cbn. split; rewrite Qmult_0_r; apply Qle_refl.
  - destruct (Hall x (or_introl eq_refl)) as [Hlo Hhi].
    destruct IH as [IHlo IHhi]; [intros y Hy; apply Hall; now right |].
    cbn [length fold_right]. rewrite Nat2Z.inj_succ, <- Z.add_1_l, inject_Z_plus.
    split.
    + setoid_replace (lo * (inject_Z 1 + inject_Z (Z.of_nat (length l))))%Q
        with (lo + lo * inject_Z (Z.of_nat (length l)))%Q by (unfold inject_Z; ring).
      now apply Qplus_le_compat.
    + setoid_replace (hi * (inject_Z 1 + inject_Z (Z.of_nat (length l))))%Q
        with (hi + hi * inject_Z (Z.of_nat (length l)))%Q by (unfold inject_Z; ring).
      now apply Qplus_le_compat.
Qed.




(** ** The backoff curve *)

(** X15: the backoff delay never shrinks from one attempt to a later one,
    is at least one second, doubles from each of the first nine attempts to
    the next, and is 900 seconds from the eleventh attempt on. *)
Theorem X15_backoff_curve :
  (forall j k, j <= k ->
               wait_exponential 1 1 900 j <= wait_exponential 1 1 900 k) /\
  (forall k, 1 <= wait_exponential 1 1 900 k) /\
  (forall k, 1 <= k <= 9 ->
             wait_exponential 1 1 900 (k + 1) = 2 * wait_exponential 1 1 900 k) /\
  (forall k, 11 <= k -> wait_exponential 1 1 900 k = 900).
Proof.
  split; [| split; [exact wait_exponential_ge | split]].
  - intros j k Hjk. unfold wait_exponential.
    assert (Hpow : 2 ^ (j - 1) <= 2 ^ (k - 1)).
    { destruct (Z_lt_le_dec (j - 1) 0) as [Hneg | Hpos].
      - rewrite (Z.pow_neg_r 2 (j - 1) Hneg). apply Z.pow_nonneg. lia.
      - apply Z.pow_le_mono_r; lia. }
    lia.
  - intros k Hk. rewrite !wait_exponential_eq by lia.
    replace (k + 1 - 1) with (Z.succ (k - 1)) by lia.
    rewrite Z.pow_succ_r by lia.
    assert (Hpow : 2 ^ (k - 1) <= 2 ^ 8) by (apply Z.pow_le_mono_r; lia).
    change (2 ^ 8) with 256 in Hpow. lia.
  - intros k Hk. rewrite wait_exponential_eq by lia.
    assert (Hpow : 2 ^ 10 <= 2 ^ (k - 1)) by (apply Z.pow_le_mono_r; lia).
    change (2 ^ 10) with 1024 in Hpow. lia.
Qed.

(** ** Thousands separators *)

Lemma strip_commas_length (s : string) :
  (String.length (strip_commas s) <= String.length s)%nat.
Proof.
  induction s as [| c s IH]; cbn; [lia |].
  destruct (Ascii.eqb c ","); cbn; lia.
Qed.

Lemma strip_commas_commas (s : string) (k : nat) :
  strip_commas s = s -> strip_commas (commas k s) = s.
Proof.
  revert k. induction s as [| c s IH]; intros k Hs; [reflexivity |].
  cbn [strip_commas] in Hs.
  destruct (Ascii.eqb c ",") eqn:Hc.
  - exfalso. pose proof (strip_commas_length s) as Hle.
    rewrite Hs in Hle. cbn in Hle. lia.
  - injection Hs as Hs. destruct k as [| k]; cbn [commas strip_commas].
    + change (Ascii.eqb "," ",") with true. cbn iota. rewrite Hc.
      now rewrite (IH 2%nat Hs).
    + rewrite Hc. now rewrite (IH k Hs).
Qed.

Lemma strip_commas_uint (d : Decimal.uint) :
  strip_commas (NilEmpty.string_of_uint d) = NilEmpty.string_of_uint d.
Proof.
  induction d; cbn [NilEmpty.string_of_uint strip_commas];
    try reflexivity; cbn; now rewrite IHd.
Qed.

Lemma strip_commas_decimal (n : Z) : strip_commas (decimal n) = decimal n.
Proof.
  unfold decimal, NilZero.string_of_uint.
  destruct (N.to_uint (Z.to_N n)); try reflexivity; apply strip_commas_uint.
Qed.

Lemma commas_length (s : string) (k : nat) :
  String.length (commas k s)
  = (String.length s
     + if (String.length s <=? k)%nat then 0
       else (String.length s - k + 2) / 3)%nat.
Proof.
  revert k. induction s as [| c s IH]; intro k; [reflexivity |].
  destruct k as [| k]; cbn [commas String.length]; rewrite IH.
  - destruct (Nat.leb_spec (String.length s) 2);
      destruct (Nat.leb_spec (S (String.length s)) 0); try lia;
      zify; Z.div_mod_to_equations; lia.
  - destruct (Nat.leb_spec (String.length s) k);
      destruct (Nat.leb_spec (S (String.length s)) (S k)); lia.
Qed.

(** X16: the thousands separators lose nothing and come one per complete
    group of three digits: removing the commas from the grouped numeral of
    a non-negative integer gives the numeral back, which reads as that
    integer; and grouping a numeral of [n >= 1] characters adds
    [(n - 1) / 3] commas. *)
Theorem X16_grouping_round_trip (n : Z) :
  0 <= n ->
  strip_commas (group3 (decimal n)) = decimal n /\
  read_decimal (strip_commas (group3 (decimal n))) = Some n /\
  (forall s, String.length (group3 s)
             = (String.length s + (String.length s - 1) / 3)%nat).
Proof.
  intro Hn.
  assert (Hstrip : strip_commas (group3 (decimal n)) = decimal n)
    by (unfold group3; apply strip_commas_commas, strip_commas_decimal).
  split; [exact Hstrip |]. split; [rewrite Hstrip; now apply decimal_read |].
  intro s. unfold group3. rewrite commas_length.
  destruct (Nat.leb_spec (String.length s) (S ((String.length s - 1) mod 3)));
    zify; Z.div_mod_to_equations; lia.
Qed.

Lemma X16_grouping_round_trip_witness :
  0 <= 1234567 /\
  group3 (decimal 1234567) = "1,234,567" /\
  read_decimal (strip_commas "1,234,567") = Some 1234567.
Proof.
  assert (H : 0 <= 1234567) by lia.
  destruct (X16_grouping_round_trip 1234567 H) as (_ & Hread & _).
  split; [exact H |]. split; [reflexivity | exact Hread].
Defined.


(** ** The rendered timestamp *)

Lemma digit_inj (a b : Z) :
  0 <= a < 10 -> 0 <= b < 10 -> digit a = digit b -> a = b.
Proof.
  intros Ha Hb H. unfold digit in H.
  apply (f_equal nat_of_ascii) in H.
  rewrite !nat_ascii_embedding in H by lia. lia.
Qed.

Lemma pad2_inj (a b : Z) :
  0 <= a < 100 -> 0 <= b < 100 -> pad2 a = pad2 b -> a = b.
Proof.
  intros Ha Hb H. unfold pad2 in H. injection H as H1 H0.
  apply digit_inj in H1; [| apply Z.mod_pos_bound; lia ..].
  apply digit_inj in H0; [| apply Z.mod_pos_bound; lia ..].
  Z.div_mod_to_equations. lia.
Qed.

Lemma pad4_inj (a b : Z) :
  0 <= a < 10000 -> 0 <= b < 10000 -> pad4 a = pad4 b -> a = b.
Proof.
  intros Ha Hb H. unfold pad4, pad2 in H. injection H as H3 H2 H1 H0.
  apply digit_inj in H3; [| apply Z.mod_pos_bound; lia ..].
  apply digit_inj in H2; [| apply Z.mod_pos_bound; lia ..].
  apply digit_inj in H1; [| apply Z.mod_pos_bound; lia ..].
  apply digit_inj in H0; [| apply Z.mod_pos_bound; lia ..].
  Z.div_mod_to_equations. lia.
Qed.

Lemma days_in_month_le (y m : Z) : 1 <= m <= 12 -> days_in_month y m <= 31.
Proof.
  intro Hm. unfold days_in_month.
  destruct ((m =? 2) && is_leap y); [lia |].
  assert (Hcases : m = 1 \/ m = 2 \/ m = 3 \/ m = 4 \/ m = 5 \/ m = 6 \/
                   m = 7 \/ m = 8 \/ m = 9 \/ m = 10 \/ m = 11 \/ m = 12) by lia.
  repeat (destruct Hcases as [-> | Hcases]; [vm_compute; discriminate |]).
  subst m. vm_compute. discriminate.
Qed.

Lemma strftime_inj (t t' : datetime) :
  wall_clock t -> wall_clock t' -> strftime t = strftime t' -> t = t'.
Proof.
  intros (Hy & Hm & Hd & Hh & Hmi & Hs) (Hy' & Hm' & Hd' & Hh' & Hmi' & Hs') H.
  pose proof (days_in_month_le (year t) (month t) Hm).
  pose proof (days_in_month_le (year t') (month t') Hm').
  unfold strftime in H.
  assert (Hsplit : forall a b c d e f a' b' c' d' e' f',
             (pad4 a ++ "-" ++ pad2 b ++ "-" ++ pad2 c ++ "T"
              ++ pad2 d ++ ":" ++ pad2 e ++ ":" ++ pad2 f
              = pad4 a' ++ "-" ++ pad2 b' ++ "-" ++ pad2 c' ++ "T"
                ++ pad2 d' ++ ":" ++ pad2 e' ++ ":" ++ pad2 f')%string ->
             pad4 a = pad4 a' /\ pad2 b = pad2 b' /\ pad2 c = pad2 c' /\
             pad2 d = pad2 d' /\ pad2 e = pad2 e' /\ pad2 f = pad2 f').
  { intros a b c d e f a' b' c' d' e' f' E. unfold pad4, pad2 in *.
    cbn [String.append] in E.
    injection E as -> -> -> -> -> -> -> -> -> -> -> -> -> ->.
    repeat split. }
  destruct (Hsplit _ _ _ _ _ _ _ _ _ _ _ _ H) as (E1 & E2 & E3 & E4 & E5 & E6).
  apply pad4_inj in E1; [| lia ..].
  apply pad2_inj in E2; [| lia ..].
  apply pad2_inj in E3; [| lia ..].
  apply pad2_inj in E4; [| lia ..].
  apply pad2_inj in E5; [| lia ..].
  apply pad2_inj in E6; [| lia ..].
  destruct t, t'. cbn in *. congruence.
Qed.

(** X18: the rendered timestamp determines the second: two epoch seconds
    of the supported range that are printed as the same text are the same
    second. *)
Theorem X18_timestamp_text_is_injective (a b : Z) (ta tb : datetime) :
  0 <= a < 253402300800 ->
  0 <= b < 253402300800 ->
  utcfromseconds a = Ok ta ->
  utcfromseconds b = Ok tb ->
  strftime ta = strftime tb ->
  a = b.
Proof.
  intros Ha Hb Hta Htb Heq.
  destruct (utcfromseconds_correct a Ha) as (ta' & Hta' & Hsa & Hwa).
  destruct (utcfromseconds_correct b Hb) as (tb' & Htb' & Hsb & Hwb).
  assert (ta' = ta) by congruence. assert (tb' = tb) by congruence. subst ta' tb'.
  rewrite <- Hsa, <- Hsb. f_equal. now apply strftime_inj.
Qed.

Lemma X18_timestamp_text_is_injective_witness :
  let t := mkDatetime 2023 11 14 22 13 20 in
  0 <= 1700000000 < 253402300800 /\
  utcfromseconds 1700000000 = Ok t /\
  strftime t = "2023-11-14T22:13:20" /\
  1700000000 = 1700000000.
Proof.
  intro t.
  assert (Ha : 0 <= 1700000000 < 253402300800) by lia.
  assert (Ht : utcfromseconds 1700000000 = Ok t) by reflexivity.
  split; [exact Ha |]. split; [exact Ht |]. split; [reflexivity |].
  exact (X18_timestamp_text_is_injective 1700000000 1700000000 t t
           Ha Ha Ht Ht eq_refl).
Defined.

(** ** Before the symbol is resolved *)

Lemma resolving_not_resolved (st : State) : resolving st -> ~ resolved st.
Proof.
  unfold resolving, resolved.
  destruct (pc st) as [[] ? | [] ? ? ? | [] ? ? | |]; tauto.
Qed.

Lemma not_resolving_resolved (st : State) : ~ resolving st -> resolved st.
Proof.
  unfold resolving, resolved.
  destruct (pc st) as [[] ? | [] ? ? ? | [] ? ? | |]; tauto.
Qed.

Lemma step_nothing_yet (cfg : Config) (st : State) (i : Input) :
  reachable_inv cfg st ->
  (resolving st -> nothing_yet cfg st) ->
  resolving (step cfg st i) -> nothing_yet cfg (step cfg st i).
Proof.
  intros Hinv Hyet Hres.
  assert (Hwas : resolving st).
  { destruct (pc st) as [[] ? | [] ? ? ? | [] ? ? | |] eqn:E;
      try (unfold resolving; now rewrite E);
      exfalso; apply (resolving_not_resolved _ Hres);
      apply (step_resolved cfg st i Hinv); unfold resolved; now rewrite E. }
  destruct (Hyet Hwas) as (Hprints & Hitems & Hsym & Hgets).
  destruct Hinv as [_ Hk].
  assert (Hsig : nothing_yet cfg (signal_handler st)).
  { unfold nothing_yet. fields. rewrite count_prints_app. cbn.
    rewrite Nat.add_0_r. repeat split; try assumption.
    intros req Hin. apply in_app_or in Hin as [Hin | [Hin | []]];
      [now apply Hgets | discriminate Hin]. }
  assert (Hfinish : forall n r,
             resolving (finish GetCoinSymbol n r st) ->
             nothing_yet cfg (finish GetCoinSymbol n r st)).
  { intros n r. unfold finish, retry_iter. destruct r as [v | e].
    - unfold returned. destruct v as [s | price ts]; [intros [] |].
      destruct (report _ _ _ _) as [[? ?] |]; intros [].
    - destruct (retry_if_exception_type e); [| intros []].
      destruct (update_retry_info n e) as [logged |] eqn:Hhook; [| intros []].
      intros _. unfold nothing_yet. fields.
      rewrite count_prints_app.
      assert (Hlogged : count_prints (logged ++ [EvSleep (wait_exponential 1 1 900 n)])
                        = 0%nat
                        /\ forall req, ~ In (EvGet req)
                                         (logged ++ [EvSleep (wait_exponential 1 1 900 n)])).
      { destruct (update_retry_info_logged n e logged Hhook) as [-> | [msg ->]];
          (split; [reflexivity |]); intros req Hin; cbn in Hin;
          intuition discriminate. }
      destruct Hlogged as [Hc Hg]. rewrite Hc, Hprints.
      repeat split; try assumption.
      intros req Hin. apply in_app_or in Hin as [Hin | Hin];
        [now apply Hgets | now elim (Hg req)]. }
  unfold step in *. unfold resolving in Hwas.
  destruct (pc st) as [[] n | [] n req k | [] n k | |] eqn:E; try contradiction.
  - destruct i as [| | g]; [exact Hsig | | now apply Hyet; unfold resolving; rewrite E].
    destruct (shutdown_requested st).
    + rewrite wrapped_shutdown in *. now apply Hfinish.
    + rewrite wrapped_call in *. unfold nothing_yet. fields. now repeat split.
  - destruct i as [| | g]; [exact Hsig | | now apply Hyet; unfold resolving; rewrite E].
    unfold nothing_yet. fields. rewrite count_prints_app. cbn.
    rewrite Nat.add_0_r. repeat split; try assumption.
    intros req' Hin. apply in_app_or in Hin as [Hin | [Hin | []]];
      [now apply Hgets |]. injection Hin as <-. apply Hk.
  - destruct i as [| | g]; [exact Hsig | now apply Hyet; unfold resolving; rewrite E |].
    now apply Hfinish.
Qed.

(** X19: while the symbol is being resolved nothing has been printed, the
    window is empty, no symbol is bound, and every request made so far is
    the symbol lookup. *)
Theorem X19_nothing_before_the_symbol (cfg : Config) (inputs : list Input) :
  let st := run cfg (start cfg) inputs in
  resolving st ->
  count_prints (trace st) = 0%nat /\
  items (prices st) = [] /\
  coin_symbol st = "" /\
  forall req, In (EvGet req) (trace st) -> req = request_of cfg GetCoinSymbol.
Proof.
  intro st.
  assert (Hstart : resolving (start cfg) -> nothing_yet cfg (start cfg)).
  { unfold start, deque_new.
    destruct (max_price_storage cfg <? 0); [intros [] |].
    intros _. unfold nothing_yet. cbn. repeat split.
    intros req [H | []]. discriminate H. }
  unfold st. generalize (start cfg) (start_inv cfg) Hstart. clear st Hstart.
  induction inputs as [| i inputs IH]; intros st Hinv Hst; [exact Hst |].
  rewrite run_cons. apply IH; [now apply step_inv |].
  now apply step_nothing_yet.
Qed.

Lemma X19_nothing_before_the_symbol_witness :
  let cfg := mkConfig "bitcoin" 10 in
  let st := run cfg (start cfg)
              (attempt_inputs (error_reply 429 "slow down")
               ++ attempt_inputs Failed ++ [Go; Sigint; Go]) in
  resolving st /\ count_prints (trace st) = 0%nat /\ coin_symbol st = "".
Proof.
  intros cfg st.
  assert (Hres : resolving st) by exact I.
  destruct (X19_nothing_before_the_symbol cfg
              (attempt_inputs (error_reply 429 "slow down")
               ++ attempt_inputs Failed ++ [Go; Sigint; Go]) Hres)
    as (Hprints & _ & Hsym & _).
  split; [exact Hres |]. split; [exact Hprints | exact Hsym].
Defined.
